(** * bademeister-go: the ZMQ payload parsers and the storage opening path

    A shallow embedding of
      - [src/zmqsubscriber]: [parseTransaction], [parseBlock] and the
        [parseHeight] closure of [parseBlock];
      - [src/storage]: [NewStorage], [initialize], [getVersion], [migrate].

    Go values are embedded as follows.
      - [[]byte] read-only data is a [list byte]; a slice that is appended to
        is a [slice] (below), which remembers whether it still shares the
        backing array of the script it was cut from.
      - [int] is the 64-bit signed integer of the amd64 target, as [Z] with
        its wrap-around written out ([wrap_int]); [uint32] and [uint64] are
        [Z] within [0, 2^32) and [0, 2^64).
      - a call returns an [outcome]: a value, an [error] value, or a run-time
        panic. *)

From Stdlib Require Import String ZArith List Bool Lia DecimalString.
From Stdlib Require Import Strings.Byte.
Import ListNotations.
Local Open Scope Z_scope.

Set Implicit Arguments.

(** ** Bytes and fixed-width integers *)

Definition u8 (b : byte) : Z := Z.of_N (Byte.to_N b).

Definition wrap_uint32 (z : Z) : Z := z mod 2 ^ 32.

Definition min_int : Z := - 2 ^ 63.
Definition max_int : Z := 2 ^ 63 - 1.

(** Conversion to Go's [int] (two's complement, 64 bits). *)
Definition wrap_int (z : Z) : Z := (z + 2 ^ 63) mod 2 ^ 64 - 2 ^ 63.

Definition fits_int (z : Z) : Prop := min_int <= z <= max_int.

(** ** Outcomes *)

(** Errors of the imported packages are kept as their message. *)
Definition lib_error := string.

(** What a call into an imported package returns: a value or an error. *)
Inductive result (A : Type) :=
| Success (a : A)
| Failure (e : lib_error).

Arguments Success {A} a.
Arguments Failure {A} e.

(** [parseHeight]'s two error returns. *)
Inductive height_error :=
| ErrPushedData (e : lib_error)        (* the error of txscript.PushedData *)
| ErrUnexpectedCount (n : nat).        (* "unexpected count %d" *)

(** The error values built by [parseTransaction] and [parseBlock], one
    constructor per [fmt.Errorf]/[errors.New] site. *)
Inductive error :=
| ErrPayloadLength (n : nat)           (* "unexpected payload length: ... got len(payload) == %d" *)
| ErrRawtxwithfeeLength                (* "unexpected rawtxwithfee length" *)
| ErrDeserialize (e : lib_error)       (* "could not deserialize the rawtx as wire.MsgTx: %s" *)
| ErrBtcDecode (e : lib_error)         (* "error during BtcDecode: %s" *)
| ErrParsingCoinbase (e : height_error)(* "error parsing coinbase: %s" *)
| ErrHeightNotFound.                   (* "height not found" *)

Inductive panic :=
| IndexOutOfRange                      (* runtime error: index out of range *)
| PanicError (e : lib_error).          (* panic(err) *)

Inductive outcome (E A : Type) :=
| Ok (a : A)
| Err (e : E)
| Panic (p : panic).

Arguments Ok {E A} a.
Arguments Err {E A} e.
Arguments Panic {E A} p.

Definition bind {E A B} (m : outcome E A) (k : A -> outcome E B) : outcome E B :=
  match m with
  | Ok a => k a
  | Err e => Err e
  | Panic p => Panic p
  end.

Notation "x <- m ;; k" := (bind m (fun x => k))
  (at level 61, m at next level, right associativity).

(** Every error value of the two parsers belongs to the spec's
    [MalformedPayload] class: a call fails with it when it returns an error. *)
Definition MalformedPayload {A} (r : outcome error A) : Prop :=
  exists e, r = Err e.

(** ** encoding/binary *)

(** [binary.LittleEndian.Uint32]: starts with the bounds check [_ = b[3]]. *)
Definition LittleEndian_Uint32 (b : list byte) : option Z :=
  match b with
  | b0 :: b1 :: b2 :: b3 :: _ =>
      Some (Z.lor (Z.lor (Z.lor (u8 b0) (Z.shiftl (u8 b1) 8))
                         (Z.shiftl (u8 b2) 16)) (Z.shiftl (u8 b3) 24))
  | _ => None
  end.

(** [binary.LittleEndian.Uint64]: starts with the bounds check [_ = b[7]]. *)
Definition LittleEndian_Uint64 (b : list byte) : option Z :=
  match b with
  | b0 :: b1 :: b2 :: b3 :: b4 :: b5 :: b6 :: b7 :: _ =>
      Some (Z.lor (Z.lor (Z.lor (Z.lor (Z.lor (Z.lor (Z.lor
              (u8 b0) (Z.shiftl (u8 b1) 8)) (Z.shiftl (u8 b2) 16))
              (Z.shiftl (u8 b3) 24)) (Z.shiftl (u8 b4) 32))
              (Z.shiftl (u8 b5) 40)) (Z.shiftl (u8 b6) 48))
              (Z.shiftl (u8 b7) 56))
  | _ => None
  end.

(** The unsigned integer a byte string encodes in little-endian order, as the
    specification words it: byte [i] has weight [256^i]. *)
Fixpoint le_value (bs : list byte) : Z :=
  match bs with
  | [] => 0
  | b :: tl => u8 b + 256 * le_value tl
  end.

(** ** wire: messages *)

(** [chainhash.Hash], a [[32]byte]. *)
Definition Hash := list byte.

Definition zeroHash : Hash := repeat x00 32.

Record OutPoint := {
  op_Hash : Hash;
  op_Index : Z                          (* uint32 *)
}.

Record TxIn := {
  PreviousOutPoint : OutPoint;
  SignatureScript : list byte;
  Witness : list (list byte);
  Sequence : Z                          (* uint32 *)
}.

Record TxOut := {
  Value : Z;                            (* int64 *)
  PkScript : list byte
}.

Record MsgTx := {
  tx_Version : Z;                       (* int32 *)
  tx_TxIn : list TxIn;
  tx_TxOut : list TxOut;
  tx_LockTime : Z                       (* uint32 *)
}.

Definition Time := Z.

Record BlockHeader := {
  bh_Version : Z;
  PrevBlock : Hash;
  MerkleRoot : Hash;
  Timestamp : Time;
  Bits : Z;
  Nonce : Z
}.

Record MsgBlock := {
  Header : BlockHeader;
  Transactions : list MsgTx
}.

(** ** Go slices over a script *)

(** [wire] stores every decoded script as [scripts[offset:end:end]]: the
    capacity of [SignatureScript] is its length.  A slice cut from it by a
    simple slice expression [script[a:b]] keeps the script's backing array
    and has capacity [len(script) - a]. *)
Inductive slice :=
| SNil                                 (* the nil slice *)
| SScript (off len : nat)              (* script[off : off+len], sharing the script's array *)
| SFresh (bs : list byte).             (* an array of its own, allocated by append *)

Definition slice_len (s : slice) : nat :=
  match s with
  | SNil => 0
  | SScript _ len => len
  | SFresh bs => length bs
  end.

Definition slice_bytes (script : list byte) (s : slice) : list byte :=
  match s with
  | SNil => []
  | SScript off len => firstn len (skipn off script)
  | SFresh bs => bs
  end.

(** [script[i] = b], for [i < len(script)]. *)
Definition store (script : list byte) (i : nat) (b : byte) : list byte :=
  firstn i script ++ b :: skipn (S i) script.

(** [append(s, b)]: when the capacity allows it the byte is written into the
    backing array in place, otherwise the contents move to a new array.  The
    state is the script's array and the slice. *)
Definition append (st : list byte * slice) (b : byte) : list byte * slice :=
  let (script, s) := st in
  match s with
  | SNil => (script, SFresh [b])
  | SScript off len =>
      if (off + len <? length script)%nat
      then (store script (off + len) b, SScript off (S len))
      else (script, SFresh (firstn len (skipn off script) ++ [b]))
  | SFresh bs => (script, SFresh (bs ++ [b]))
  end.

(** ** txscript.PushedData *)

(** The opcodes that matter to [PushedData]. *)
Definition OP_0 : Z := 0.
Definition OP_DATA_75 : Z := 75.
Definition OP_PUSHDATA1 : Z := 76.
Definition OP_PUSHDATA2 : Z := 77.
Definition OP_PUSHDATA4 : Z := 78.

Definition ErrMalformedPush : lib_error := "opcode requires more bytes than the script has"%string.

(** One pass over the script.  [rest] is [script[off:]]; [skip] counts the
    bytes of the current push that are still to be stepped over.  A data push
    contributes the sub-slice holding its data, [OP_0] contributes the nil
    slice, every other opcode (including [OP_1] to [OP_16]) contributes
    nothing; a push that runs past the end of the script is an error. *)
Fixpoint scanPushes (rest : list byte) (off skip : nat) : option (list slice) :=
  match rest with
  | [] => Some []
  | op :: tl =>
      match skip with
      | S k => scanPushes tl (S off) k
      | O =>
          let v := u8 op in
          if v =? OP_0 then option_map (cons SNil) (scanPushes tl (S off) 0)
          else if v <=? OP_DATA_75 then
            let n := Z.to_nat v in
            if (length tl <? n)%nat then None
            else option_map (cons (SScript (S off) n)) (scanPushes tl (S off) n)
          else if v =? OP_PUSHDATA1 then
            match tl with
            | l0 :: d =>
                let l := Z.to_nat (u8 l0) in
                if (length d <? l)%nat then None
                else option_map (cons (SScript (off + 2) l)) (scanPushes tl (S off) (1 + l))
            | _ => None
            end
          else if v =? OP_PUSHDATA2 then
            match tl with
            | l0 :: l1 :: d =>
                let l := Z.to_nat (Z.lor (Z.shiftl (u8 l1) 8) (u8 l0)) in
                if (length d <? l)%nat then None
                else option_map (cons (SScript (off + 3) l)) (scanPushes tl (S off) (2 + l))
            | _ => None
            end
          else if v =? OP_PUSHDATA4 then
            match tl with
            | l0 :: l1 :: l2 :: l3 :: d =>
                let l := Z.to_nat (Z.lor (Z.lor (Z.lor (Z.shiftl (u8 l3) 24) (Z.shiftl (u8 l2) 16))
                                                (Z.shiftl (u8 l1) 8)) (u8 l0)) in
                if (length d <? l)%nat then None
                else option_map (cons (SScript (off + 5) l)) (scanPushes tl (S off) (4 + l))
            | _ => None
            end
          else scanPushes tl (S off) 0
      end
  end.

Definition PushedData (script : list byte) : result (list slice) :=
  match scanPushes script 0 0 with
  | Some data => Success data
  | None => Failure ErrMalformedPush
  end.

(** ** blockchain.IsCoinBaseTx *)

Fixpoint bytes_eqb (a b : list byte) : bool :=
  match a, b with
  | [], [] => true
  | x :: a', y :: b' => Byte.eqb x y && bytes_eqb a' b'
  | _, _ => false
  end.

Definition MaxUint32 : Z := 4294967295.

(** One input, whose previous output has the maximal index and the zero hash. *)
Definition IsCoinBaseTx (msgTx : MsgTx) : bool :=
  match tx_TxIn msgTx with
  | [txin] =>
      let prevOut := PreviousOutPoint txin in
      (op_Index prevOut =? MaxUint32) && bytes_eqb (op_Hash prevOut) zeroHash
  | _ => false
  end.

(** ** parseHeight *)

(** The loop [for len(heightLE) < 4 { heightLE = append(heightLE, 0) }]; the
    length grows by one in each round, so four rounds are enough. *)
Fixpoint padLoop (rounds : nat) (st : list byte * slice) : list byte * slice :=
  match rounds with
  | O => st
  | S k => if (slice_len (snd st) <? 4)%nat then padLoop k (append st x00) else st
  end.

(** [parseHeight], the closure of [parseBlock].  [data[0]] is a sub-slice of
    [txin.SignatureScript], so the appends may write into the script: the
    second component is the content of the script's array after the call. *)
Definition parseHeight (txin : TxIn) : outcome height_error Z * list byte :=
  let script := SignatureScript txin in
  match PushedData script with
  | Failure e => (Err (ErrPushedData e), script)
  | Success data =>
      if negb (length data =? 2)%nat
      then (Err (ErrUnexpectedCount (length data)), script)
      else
        match data with
        | d0 :: _ =>
            let (script', heightLE) := padLoop 4 (script, d0) in
            match LittleEndian_Uint32 (slice_bytes script' heightLE) with
            | Some height => (Ok (wrap_int height), script')
            | None => (Panic IndexOutOfRange, script')
            end
        | [] => (Panic IndexOutOfRange, script)
        end
  end.

(** ** types *)

(** Modelled from the spec: [types.Hash32], whose declaration is not part of
    the sources at hand: "a fixed 32-byte identifier (transaction id or block
    hash), compared and stored as raw bytes". *)
Definition Hash32 := list byte.

(** [types.Transaction]. *)
Record Transaction := {
  TxID : Hash32;
  FirstSeen : Time;
  LastRemoved : option Time;
  Fee : Z;                              (* uint64 *)
  Weight : Z;                           (* int *)
  BlockHeight : Z;                      (* int32 *)
  IndexInBlock : Z                      (* int32 *)
}.

(** Modelled from the spec: [types.Block], whose declaration is not part of
    the sources at hand; the fields are those of the spec's data model, under
    the names [parseBlock] fills in. *)
Record Block := {
  blk_FirstSeen : Time;
  EncodedTime : Time;
  blk_Hash : Hash32;
  Parent : Hash32;
  TxIDs : list Hash32;
  Height : Z;                           (* uint32 *)
  IsBest : bool
}.

(** ** The imported operations the parsers call *)

(** [wire]'s decoders, hashes and sizes, and [types.NewHashFromArray], are
    used as black boxes. *)
Class WireLib := {
  (* wireTx.Deserialize(bytes.NewReader(b)) on a fresh wire.NewMsgTx *)
  Deserialize : list byte -> result MsgTx;
  (* wireBlock.BtcDecode(bytes.NewReader(b), 0, wire.LatestEncoding) *)
  BtcDecode : list byte -> result MsgBlock;
  (* MsgTx.TxHash: the double hash of the serialization without witness *)
  TxHash : MsgTx -> Hash;
  (* MsgBlock.BlockHash, which is the header's BlockHash *)
  BlockHash : BlockHeader -> Hash;
  SerializeSize : MsgTx -> Z;
  SerializeSizeStripped : MsgTx -> Z;
  NewHashFromArray : Hash -> Hash32
}.

Section Parsers.

Context {W : WireLib}.

(** ** parseTransaction *)

Definition parseTransaction (firstSeen : Time) (payload : list (list byte))
  : outcome error Transaction :=
  if negb (length payload =? 2)%nat
  then Err (ErrPayloadLength (length payload))
  else
    match nth_error payload 0, nth_error payload 1 with
    | Some rawtxwithfee, Some _ =>
        let length_ := length rawtxwithfee in
        if (length_ <=? 8)%nat
        then Err ErrRawtxwithfeeLength
        else
          let rawtx := firstn (length_ - 8) rawtxwithfee in
          let feeBytes := skipn (length_ - 8) rawtxwithfee in
          match Deserialize rawtx with
          | Failure e => Err (ErrDeserialize e)
          | Success wireTx =>
              let txid := NewHashFromArray (TxHash wireTx) in
              match LittleEndian_Uint64 feeBytes with
              | None => Panic IndexOutOfRange
              | Some fee =>
                  let weight :=
                    wrap_int (wrap_int (SerializeSizeStripped wireTx * 3)
                              + SerializeSize wireTx) in
                  Ok {| TxID := txid;
                        FirstSeen := firstSeen;
                        LastRemoved := None;
                        Fee := fee;
                        Weight := weight;
                        BlockHeight := 0;
                        IndexInBlock := 0 |}
              end
          end
    | _, _ => Panic IndexOutOfRange
    end.

(** ** parseBlock *)

(** The transaction after its first input's script array has been written. *)
Definition withScript (t : MsgTx) (script : list byte) : MsgTx :=
  match tx_TxIn t with
  | txin :: ins =>
      {| tx_Version := tx_Version t;
         tx_TxIn := {| PreviousOutPoint := PreviousOutPoint txin;
                       SignatureScript := script;
                       Witness := Witness txin;
                       Sequence := Sequence txin |} :: ins;
         tx_TxOut := tx_TxOut t;
         tx_LockTime := tx_LockTime t |}
  | [] => t
  end.

(** The loop over [wireBlock.Transactions], with the variables [height] and
    [txHashes] it updates.  [t.TxHash()] is taken after [parseHeight] has
    run on [*t.TxIn[0]], whose script shares its array with [t]. *)
Fixpoint txLoop (txs : list MsgTx) (height : Z) (txHashes : list Hash32)
  : outcome error (Z * list Hash32) :=
  match txs with
  | [] => Ok (height, txHashes)
  | t :: rest =>
      if IsCoinBaseTx t then
        match nth_error (tx_TxIn t) 0 with
        | None => Panic IndexOutOfRange
        | Some txin =>
            match parseHeight txin with
            | (Err e, _) => Err (ErrParsingCoinbase e)
            | (Panic p, _) => Panic p
            | (Ok h, script') =>
                txLoop rest h
                  (txHashes ++ [NewHashFromArray (TxHash (withScript t script'))])
            end
        end
      else txLoop rest height (txHashes ++ [NewHashFromArray (TxHash t)])
  end.

Definition parseBlock (firstSeen : Time) (msg : list (list byte))
  : outcome error Block :=
  match nth_error msg 0, nth_error msg 1 with
  | Some rawblock, Some _ =>
      match BtcDecode rawblock with
      | Failure e => Err (ErrBtcDecode e)
      | Success wireBlock =>
          r <- txLoop (Transactions wireBlock) (-1) [] ;;
          let (height, txHashes) := r in
          if height <? 0
          then Err ErrHeightNotFound
          else
            let isBest := true in
            Ok {| blk_FirstSeen := firstSeen;
                  EncodedTime := Timestamp (Header wireBlock);
                  blk_Hash := NewHashFromArray (BlockHash (Header wireBlock));
                  Parent := NewHashFromArray (PrevBlock (Header wireBlock));
                  TxIDs := txHashes;
                  Height := wrap_uint32 height;
                  IsBest := isBest |}
      end
  | _, _ => Panic IndexOutOfRange
  end.

End Parsers.

(** ** storage *)

Module Storage.

Definition currentVersion : Z := 5.

(** *** The database file behind a path

    The four tables of the schema; [None] is a table that does not exist.
    A cell of [config.version] is an integer or NULL. *)
Record TransactionRow := {
  tr_id : Z; tr_txid : list byte; tr_first_seen : option Z;
  tr_last_removed : option Z; tr_fee : option Z; tr_weight : option Z
}.

Record BlockRow := {
  br_id : Z; br_hash : list byte; br_parent : option (list byte);
  br_first_seen : option Z; br_height : option Z; br_is_best : option Z
}.

Record TransactionBlockRow := {
  tb_transaction_id : Z; tb_block_id : Z; tb_block_index : Z
}.

Record Database := {
  config : option (list (option Z));
  transaction : option (list TransactionRow);
  block : option (list BlockRow);
  transaction_block : option (list TransactionBlockRow)
}.

Definition emptyDatabase : Database :=
  {| config := None; transaction := None; block := None;
     transaction_block := None |}.

(** What the handle of [sql.Open] works on.  [Unopenable e] is a path at
    which sqlite can neither open nor create a file (a missing directory, a
    file it may not read): every statement fails with [e]. *)
Inductive file :=
| NotADatabase (content : list byte)   (* a file sqlite does not accept as a database *)
| Sqlite (db : Database)
| Unopenable (e : lib_error).

(** What [os.Stat] finds at the path.  For both [Absent] and [Uncreatable]
    it returns an error for which [os.IsNotExist] holds; at an [Absent] path
    sqlite creates the database file with the first statement, at an
    [Uncreatable] one it cannot. *)
Inductive path_state :=
| Absent                               (* no file, and one can be created *)
| Unreachable (e : lib_error)          (* any other error of os.Stat *)
| Present (f : file)
| Uncreatable (e : lib_error).         (* no file, and none can be created *)

(** *** Errors *)

Inductive initialize_error :=
| ErrCreateConfig (e : lib_error)      (* "could not create the `config` table: %s" *)
| ErrFillConfig (e : lib_error)        (* "could not fill the `config` table: %s" *)
| ErrCreateTransaction (e : lib_error) (* "could not create the table `transaction`: %s" *)
| ErrCreateBlock (e : lib_error)       (* "could not create the table `block`: %s" *)
| ErrCreateTransactionBlock (e : lib_error).

Inductive migrate_error :=
| ErrCannotMigrate (fromVersion : Z).  (* "cannot migrate from version %d" *)

Inductive storage_error :=
| ErrStat (e : lib_error)              (* the error of os.Stat, returned as it is *)
| ErrOpen (e : lib_error)              (* the error of sql.Open, returned as it is *)
| ErrInitialize (e : initialize_error) (* "could not initialize the database at path %s" *)
| ErrMigrate (e : migrate_error).      (* "could not migrate the database: %s" *)

(** The spec's names for the two failures of [Open]. *)
Definition StorageInitError {A} (r : outcome storage_error A) : Prop :=
  exists e, r = Err (ErrInitialize e).

Definition MigrationError {A} (r : outcome storage_error A) : Prop :=
  exists e, r = Err (ErrMigrate e).

(** *** The statements the code executes *)

(** The errors of the library, one text for each kind; sqlite's own texts
    say more (the name of the table, for one), and nothing below depends on
    them. *)
Definition notADatabase : lib_error := "file is not a database"%string.
Definition tableExists : lib_error := "table already exists"%string.
Definition noSuchTable : lib_error := "no such table"%string.
Definition ErrNoRows : lib_error := "sql: no rows in result set"%string.
Definition scanNull : lib_error := "converting NULL to int is unsupported"%string.

Definition createTable {R} (get : Database -> option (list R))
    (set : Database -> Database) (f : file) : result file :=
  match f with
  | NotADatabase _ => Failure notADatabase
  | Unopenable e => Failure e
  | Sqlite db =>
      match get db with
      | Some _ => Failure tableExists
      | None => Success (Sqlite (set db))
      end
  end.

(** [CREATE TABLE config (version INTEGER)] *)
Definition createConfigTable : file -> result file :=
  createTable config (fun db =>
    {| config := Some []; transaction := transaction db; block := block db;
       transaction_block := transaction_block db |}).

(** [INSERT INTO config (version) VALUES (?)] *)
Definition fillConfigTable (version : Z) (f : file) : result file :=
  match f with
  | NotADatabase _ => Failure notADatabase
  | Unopenable e => Failure e
  | Sqlite db =>
      match config db with
      | None => Failure noSuchTable
      | Some rows =>
          Success (Sqlite {| config := Some (rows ++ [Some version]);
                             transaction := transaction db; block := block db;
                             transaction_block := transaction_block db |})
      end
  end.

Definition createTransactionTable : file -> result file :=
  createTable transaction (fun db =>
    {| config := config db; transaction := Some []; block := block db;
       transaction_block := transaction_block db |}).

Definition createBlockTable : file -> result file :=
  createTable block (fun db =>
    {| config := config db; transaction := transaction db; block := Some [];
       transaction_block := transaction_block db |}).

Definition createTransactionBlockTable : file -> result file :=
  createTable transaction_block (fun db =>
    {| config := config db; transaction := transaction db; block := block db;
       transaction_block := Some [] |}).

(** [SELECT version FROM config], the first row scanned into an [int]. *)
Definition selectVersion (f : file) : result Z :=
  match f with
  | NotADatabase _ => Failure notADatabase
  | Unopenable e => Failure e
  | Sqlite db =>
      match config db with
      | None => Failure noSuchTable
      | Some [] => Failure ErrNoRows
      | Some (None :: _) => Failure scanNull
      | Some (Some version :: _) => Success version
      end
  end.

(** *** The functions of the package

    [initialize] and [NewStorage] write: they take the file behind the handle
    and return it as the call leaves it.  A statement that fails leaves the
    file as it was; the statements before it have taken effect.  [getVersion]
    and [migrate] execute no statement that writes. *)

Definition initialize (version : Z) (f : file)
  : outcome initialize_error unit * file :=
  match createConfigTable f with
  | Failure e => (Err (ErrCreateConfig e), f)
  | Success f1 =>
  match fillConfigTable version f1 with
  | Failure e => (Err (ErrFillConfig e), f1)
  | Success f2 =>
  match createTransactionTable f2 with
  | Failure e => (Err (ErrCreateTransaction e), f2)
  | Success f3 =>
  match createBlockTable f3 with
  | Failure e => (Err (ErrCreateBlock e), f3)
  | Success f4 =>
  match createTransactionBlockTable f4 with
  | Failure e => (Err (ErrCreateTransactionBlock e), f4)
  | Success f5 => (Ok tt, f5)
  end end end end end.

(** [QueryRow] never returns nil; [Scan] reports the query's error, the
    missing row or the failed conversion, and [getVersion] panics with it. *)
Definition getVersion (f : file) : outcome migrate_error Z :=
  match selectVersion f with
  | Failure e => Panic (PanicError e)
  | Success version => Ok version
  end.

Definition migrate (fromVersion : Z) : outcome migrate_error unit :=
  if fromVersion =? currentVersion
  then Ok tt
  else Err (ErrCannotMigrate fromVersion).

(** [sql.Open] does not touch the file; it fails for a driver that is not
    registered. *)
Definition sql_Open (driverName : string) : result unit :=
  if String.eqb driverName "sqlite3" then Success tt
  else Failure "sql: unknown driver"%string.

(** [NewStorage]: the outcome and the state of the path afterwards.  With no
    file at the path [init] is true and [initialize] runs: on the empty
    database sqlite creates, or, where it cannot create one, on a handle
    whose statements fail, which leaves the path as it was. *)
Definition NewStorage (st : path_state) : outcome storage_error unit * path_state :=
  match st with
  | Unreachable e => (Err (ErrStat e), st)
  | Absent =>
      match sql_Open "sqlite3" with
      | Failure e => (Err (ErrOpen e), st)
      | Success _ =>
          match initialize currentVersion (Sqlite emptyDatabase) with
          | (Ok _, f) => (Ok tt, Present f)
          | (Err e, f) => (Err (ErrInitialize e), Present f)
          | (Panic p, f) => (Panic p, Present f)
          end
      end
  | Present f =>
      match sql_Open "sqlite3" with
      | Failure e => (Err (ErrOpen e), st)
      | Success _ =>
          match getVersion f with
          | Panic p => (Panic p, st)
          | Err e => (Err (ErrMigrate e), st)
          | Ok version =>
              match migrate version with
              | Ok _ => (Ok tt, st)
              | Err e => (Err (ErrMigrate e), st)
              | Panic p => (Panic p, st)
              end
          end
      end
  | Uncreatable e =>
      match sql_Open "sqlite3" with
      | Failure e' => (Err (ErrOpen e'), st)
      | Success _ =>
          match initialize currentVersion (Unopenable e) with
          | (Ok _, f) => (Ok tt, Present f)
          | (Err e', _) => (Err (ErrInitialize e'), st)
          | (Panic p, _) => (Panic p, st)
          end
      end
  end.

(** *** TxCount *)

Inductive count_error :=
| ErrCount (e : lib_error).            (* "could not get count from table `transaction`: %s" *)

(** [SELECT COUNT(txid) FROM "transaction"], scanned into an [int].  The
    column [txid] is [NOT NULL]: the count is the number of rows. *)
Definition selectCount (f : file) : result Z :=
  match f with
  | NotADatabase _ => Failure notADatabase
  | Unopenable e => Failure e
  | Sqlite db =>
      match transaction db with
      | None => Failure noSuchTable
      | Some rows => Success (Z.of_nat (length rows))
      end
  end.

Definition TxCount (f : file) : outcome count_error Z :=
  match selectCount f with
  | Failure e => Err (ErrCount e)
  | Success count => Ok count
  end.

(** *** Queries *)

(** The interface [Query]. *)
Class Query (Q : Type) := {
  Where : Q -> string;
  Order : Q -> string;
  Limit : Q -> Z                        (* int *)
}.

Record StaticQuery := {
  where_ : string;
  order : string;
  limit : Z
}.

#[export] Instance StaticQuery_Query : Query StaticQuery :=
  {| Where := where_; Order := order; Limit := limit |}.

(** [strings.Join] *)
Fixpoint Join (elems : list string) (sep : string) : string :=
  match elems with
  | [] => EmptyString
  | [a] => a
  | a :: tl => (a ++ sep ++ Join tl sep)%string
  end.

(** The verb [%d] on an [int]. *)
Definition decimal (n : Z) : string :=
  DecimalString.NilZero.string_of_int (Z.to_int n).

Definition quote : string := String (Ascii.ascii_of_nat 34) EmptyString.

Definition formatQuery {Q} `{Query Q} (fields : list string) (table : string) (q : Q)
  : string :=
  let query := ("SELECT " ++ Join fields "," ++ " FROM " ++ quote ++ table ++ quote)%string in
  let query :=
    if String.eqb (Where q) EmptyString then query
    else (query ++ " WHERE " ++ Where q)%string in
  let query :=
    if String.eqb (Order q) EmptyString then query
    else (query ++ " ORDER BY " ++ Order q)%string in
  let query :=
    if 0 <? Limit q then (query ++ " LIMIT " ++ decimal (Limit q))%string
    else query in
  query.

End Storage.

(** ** A reference [WireLib]: the Bitcoin wire format

    The statements below hold for every [WireLib].  To run the parsers on
    concrete payloads, this module implements the operations the way [wire]
    and [chainhash] do: the serialization of transactions and block headers,
    the decoders with their limits, and the double SHA-256. *)

Module Btcd.

Definition byte_of_Z (z : Z) : byte :=
  match Byte.of_N (Z.to_N (z mod 256)) with
  | Some b => b
  | None => x00
  end.

(** *** SHA-256 (FIPS 180-4) *)

Definition add32 (a b : Z) : Z := (a + b) mod 2 ^ 32.

Definition rotr (n x : Z) : Z :=
  Z.lor (Z.shiftr x n) (Z.shiftl x (32 - n) mod 2 ^ 32).

Definition not32 (x : Z) : Z := 2 ^ 32 - 1 - x.

Definition Ch (x y z : Z) : Z := Z.lxor (Z.land x y) (Z.land (not32 x) z).
Definition Maj (x y z : Z) : Z :=
  Z.lxor (Z.lxor (Z.land x y) (Z.land x z)) (Z.land y z).
Definition Sigma0 (x : Z) : Z := Z.lxor (Z.lxor (rotr 2 x) (rotr 13 x)) (rotr 22 x).
Definition Sigma1 (x : Z) : Z := Z.lxor (Z.lxor (rotr 6 x) (rotr 11 x)) (rotr 25 x).
Definition sigma0 (x : Z) : Z := Z.lxor (Z.lxor (rotr 7 x) (rotr 18 x)) (Z.shiftr x 3).
Definition sigma1 (x : Z) : Z := Z.lxor (Z.lxor (rotr 17 x) (rotr 19 x)) (Z.shiftr x 10).

(** The constants are defined the way the standard defines them: the first
    32 bits of the fractional parts of the cube roots, and of the square
    roots, of the first primes. *)
Definition is_prime (p : Z) : bool :=
  forallb (fun d => negb (p mod Z.of_nat d =? 0)) (seq 2 (Z.to_nat p - 2)).

Definition primes64 : list Z :=
  filter is_prime (map Z.of_nat (seq 2 310)).

(** The integer cube root, found bit by bit from bit [k - 1] down. *)
Fixpoint cbrt_bits (k : nat) (n r : Z) : Z :=
  match k with
  | O => r
  | S k' =>
      let c := r + 2 ^ Z.of_nat k' in
      cbrt_bits k' n (if c * c * c <=? n then c else r)
  end.

Definition K256 : list Z :=
  map (fun p => cbrt_bits 36 (p * 2 ^ 96) 0 mod 2 ^ 32) primes64.

Definition H256 : list Z :=
  map (fun p => Z.sqrt (p * 2 ^ 64) mod 2 ^ 32) (firstn 8 primes64).

(** Big-endian bytes of a word, and back. *)
Fixpoint be_bytes (n : nat) (z : Z) : list byte :=
  match n with
  | O => []
  | S k => byte_of_Z (Z.shiftr z (8 * Z.of_nat k)) :: be_bytes k z
  end.

Definition be_value (bs : list byte) : Z :=
  fold_left (fun acc b => acc * 256 + u8 b) bs 0.

Fixpoint chunks (n count : nat) (bs : list byte) : list (list byte) :=
  match count with
  | O => []
  | S k => firstn n bs :: chunks n k (skipn n bs)
  end.

(** The message, the bit 1, zeros up to 56 modulo 64, the bit length. *)
Definition sha_pad (msg : list byte) : list byte :=
  let l := length msg in
  let zeros := ((119 - l mod 64) mod 64)%nat in
  msg ++ x80 :: repeat x00 zeros ++ be_bytes 8 (8 * Z.of_nat l).

(** The 64 rounds on one block.  [w] holds the sixteen schedule words from
    the current round on. *)
Fixpoint sha_rounds (ks : list Z) (w : list Z) (s : list Z) : list Z :=
  match ks, w, s with
  | k :: ks', w0 :: w', [a; b; c; d; e; f; g; h] =>
      let t1 := add32 (add32 (add32 (add32 h (Sigma1 e)) (Ch e f g)) k) w0 in
      let t2 := add32 (Sigma0 a) (Maj a b c) in
      let wnew :=
        add32 (add32 (add32 (sigma1 (nth 13 w' 0)) (nth 8 w' 0)) (sigma0 (nth 0 w' 0))) w0 in
      sha_rounds ks' (w' ++ [wnew]) [add32 t1 t2; a; b; c; add32 d t1; e; f; g]
  | _, _, _ => s
  end.

Definition sha_block (h : list Z) (blockBytes : list byte) : list Z :=
  let w := map be_value (chunks 4 16 blockBytes) in
  map (fun p => add32 (fst p) (snd p)) (combine h (sha_rounds K256 w h)).

Definition sha256 (msg : list byte) : list byte :=
  let padded := sha_pad msg in
  let blocks := chunks 64 (length padded / 64) padded in
  flat_map (be_bytes 4) (fold_left sha_block blocks H256).

(** [chainhash.DoubleHashH] *)
Definition DoubleHashH (b : list byte) : Hash := sha256 (sha256 b).

(** *** Serialization *)

Fixpoint le_bytes (n : nat) (z : Z) : list byte :=
  match n with
  | O => []
  | S k => byte_of_Z z :: le_bytes k (Z.shiftr z 8)
  end.

Definition WriteVarInt (val : Z) : list byte :=
  if val <? 0xfd then [byte_of_Z val]
  else if val <=? 0xffff then xfd :: le_bytes 2 val
  else if val <=? 0xffffffff then xfe :: le_bytes 4 val
  else xff :: le_bytes 8 val.

Definition WriteVarBytes (b : list byte) : list byte :=
  WriteVarInt (Z.of_nat (length b)) ++ b.

Definition writeTxIn (ti : TxIn) : list byte :=
  op_Hash (PreviousOutPoint ti) ++ le_bytes 4 (op_Index (PreviousOutPoint ti))
  ++ WriteVarBytes (SignatureScript ti) ++ le_bytes 4 (Sequence ti).

Definition writeTxOut (to : TxOut) : list byte :=
  le_bytes 8 (Value to) ++ WriteVarBytes (PkScript to).

Definition writeTxWitness (ti : TxIn) : list byte :=
  WriteVarInt (Z.of_nat (length (Witness ti))) ++ flat_map WriteVarBytes (Witness ti).

Definition HasWitness (msg : MsgTx) : bool :=
  existsb (fun ti => negb (length (Witness ti) =? 0)%nat) (tx_TxIn msg).

(** [MsgTx.BtcEncode] with [WitnessEncoding] ([true]) or [BaseEncoding]. *)
Definition BtcEncode (witnessEncoding : bool) (msg : MsgTx) : list byte :=
  let doWitness := witnessEncoding && HasWitness msg in
  le_bytes 4 (tx_Version msg)
  ++ (if doWitness then [x00; x01] else [])
  ++ WriteVarInt (Z.of_nat (length (tx_TxIn msg))) ++ flat_map writeTxIn (tx_TxIn msg)
  ++ WriteVarInt (Z.of_nat (length (tx_TxOut msg))) ++ flat_map writeTxOut (tx_TxOut msg)
  ++ (if doWitness then flat_map writeTxWitness (tx_TxIn msg) else [])
  ++ le_bytes 4 (tx_LockTime msg).

Definition writeBlockHeader (bh : BlockHeader) : list byte :=
  le_bytes 4 (bh_Version bh) ++ PrevBlock bh ++ MerkleRoot bh
  ++ le_bytes 4 (Timestamp bh) ++ le_bytes 4 (Bits bh) ++ le_bytes 4 (Nonce bh).

(** *** Decoding *)

Definition reader (A : Type) := list byte -> option (A * list byte).

Definition ret {A} (a : A) : reader A := fun bs => Some (a, bs).

Definition fail {A} : reader A := fun _ => None.

Definition rbind {A B} (m : reader A) (k : A -> reader B) : reader B :=
  fun bs => match m bs with
            | Some (a, rest) => k a rest
            | None => None
            end.

Notation "x <~ m ;; k" := (rbind m (fun x => k))
  (at level 61, m at next level, right associativity).

(** [io.ReadFull] of [n] bytes. *)
Definition readBytes (n : Z) : reader (list byte) :=
  fun bs => if Z.of_nat (length bs) <? n then None
            else Some (firstn (Z.to_nat n) bs, skipn (Z.to_nat n) bs).

Definition readUint (n : Z) : reader Z :=
  b <~ readBytes n ;; ret (le_value b).

Definition signed (bits z : Z) : Z :=
  (z + 2 ^ (bits - 1)) mod 2 ^ bits - 2 ^ (bits - 1).

(** [wire.ReadVarInt]; an encoding longer than needed is an error. *)
Definition ReadVarInt : reader Z :=
  d <~ readUint 1 ;;
  if d =? 0xff then (v <~ readUint 8 ;; if v <? 0x100000000 then fail else ret v)
  else if d =? 0xfe then (v <~ readUint 4 ;; if v <? 0x10000 then fail else ret v)
  else if d =? 0xfd then (v <~ readUint 2 ;; if v <? 0xfd then fail else ret v)
  else ret d.

Fixpoint readN {A} (rd : reader A) (n : nat) : reader (list A) :=
  match n with
  | O => ret []
  | S k => a <~ rd ;; l <~ readN rd k ;; ret (a :: l)
  end.

Definition MaxMessagePayload : Z := 1024 * 1024 * 32.
Definition maxTxInPerMessage : Z := MaxMessagePayload / 41 + 1.
Definition maxTxOutPerMessage : Z := MaxMessagePayload / 9 + 1.
Definition maxWitnessItemsPerInput : Z := 500000.
Definition maxWitnessItemSize : Z := 11000.
Definition maxTxPerBlock : Z := 4000000 / 10 + 1.

Definition readScript (maxAllowed : Z) : reader (list byte) :=
  count <~ ReadVarInt ;;
  if maxAllowed <? count then fail else readBytes count.

Definition readTxIn : reader TxIn :=
  h <~ readBytes 32 ;;
  index <~ readUint 4 ;;
  script <~ readScript MaxMessagePayload ;;
  sequence <~ readUint 4 ;;
  ret {| PreviousOutPoint := {| op_Hash := h; op_Index := index |};
         SignatureScript := script; Witness := []; Sequence := sequence |}.

Definition readTxOut : reader TxOut :=
  value <~ readUint 8 ;;
  pkScript <~ readScript MaxMessagePayload ;;
  ret {| Value := signed 64 value; PkScript := pkScript |}.

Definition readWitness (ti : TxIn) : reader TxIn :=
  witCount <~ ReadVarInt ;;
  if maxWitnessItemsPerInput <? witCount then fail
  else
    items <~ readN (readScript maxWitnessItemSize) (Z.to_nat witCount) ;;
    ret {| PreviousOutPoint := PreviousOutPoint ti;
           SignatureScript := SignatureScript ti;
           Witness := items; Sequence := Sequence ti |}.

Fixpoint readWitnesses (ins : list TxIn) : reader (list TxIn) :=
  match ins with
  | [] => ret []
  | ti :: tl => ti' <~ readWitness ti ;; tl' <~ readWitnesses tl ;; ret (ti' :: tl')
  end.

(** [MsgTx.BtcDecode] with [WitnessEncoding]: an input count of zero
    announces the flag byte of a transaction with witness data. *)
Definition readTx : reader MsgTx :=
  version <~ readUint 4 ;;
  count <~ ReadVarInt ;;
  fc <~ (if count =? 0
         then (flag <~ readUint 1 ;;
               if flag =? 1 then (c <~ ReadVarInt ;; ret (flag, c)) else fail)
         else ret (0, count)) ;;
  let (flag, count) := fc : Z * Z in
  if maxTxInPerMessage <? count then fail
  else
    ins <~ readN readTxIn (Z.to_nat count) ;;
    count <~ ReadVarInt ;;
    if maxTxOutPerMessage <? count then fail
    else
      outs <~ readN readTxOut (Z.to_nat count) ;;
      ins' <~ (if flag =? 0 then ret ins else readWitnesses ins) ;;
      lockTime <~ readUint 4 ;;
      ret {| tx_Version := signed 32 version; tx_TxIn := ins';
             tx_TxOut := outs; tx_LockTime := lockTime |}.

Definition readBlockHeader : reader BlockHeader :=
  version <~ readUint 4 ;;
  prevBlock <~ readBytes 32 ;;
  merkleRoot <~ readBytes 32 ;;
  timestamp <~ readUint 4 ;;
  bits <~ readUint 4 ;;
  nonce <~ readUint 4 ;;
  ret {| bh_Version := signed 32 version; PrevBlock := prevBlock;
         MerkleRoot := merkleRoot; Timestamp := timestamp;
         Bits := bits; Nonce := nonce |}.

Definition readBlock : reader MsgBlock :=
  header <~ readBlockHeader ;;
  txCount <~ ReadVarInt ;;
  if maxTxPerBlock <? txCount then fail
  else
    txs <~ readN readTx (Z.to_nat txCount) ;;
    ret {| Header := header; Transactions := txs |}.

Definition decodeError : lib_error := "unexpected EOF or malformed message"%string.

(** The reader is a [bytes.Reader]: what follows the message is not read. *)
Definition run {A} (rd : reader A) (b : list byte) : result A :=
  match rd b with
  | Some (a, _) => Success a
  | None => Failure decodeError
  end.

Definition lib : WireLib :=
  {| Deserialize := run readTx;
     BtcDecode := run readBlock;
     TxHash := fun msg => DoubleHashH (BtcEncode false msg);
     BlockHash := fun bh => DoubleHashH (writeBlockHeader bh);
     SerializeSize := fun msg => Z.of_nat (length (BtcEncode true msg));
     SerializeSizeStripped := fun msg => Z.of_nat (length (BtcEncode false msg));
     NewHashFromArray := fun h => h |}.

End Btcd.

(** ** Concrete messages *)

Module Samples.

Import Ascii.

Definition hex_digit (c : ascii) : Z :=
  let n := Z.of_nat (nat_of_ascii c) in
  if (48 <=? n) && (n <=? 57) then n - 48
  else if (97 <=? n) && (n <=? 102) then n - 87
  else 0.

(** The bytes a string of hexadecimal digits denotes. *)
Fixpoint hex (s : string) : list byte :=
  match s with
  | String a (String b tl) => Btcd.byte_of_Z (16 * hex_digit a + hex_digit b) :: hex tl
  | _ => []
  end.

(** A coinbase transaction as Bitcoin Core's regtest miner builds it at
    height 103: the script pushes the height (one byte, 0x67) and the extra
    nonce (one byte, 0x01). *)
Definition coinbase103_raw : list byte :=
  hex ("02000000010000000000000000000000000000000000000000000000000000000000000000"
    ++ "ffffffff0401670101ffffffff0100f2052a010000001976a914111111111111111111111111"
    ++ "111111111111111188ac00000000").

(** A transaction spending one output. *)
Definition spend_raw : list byte :=
  hex ("0200000001000102030405060708090a0b0c0d0e0f101112131415161718191a1b1c1d1e1f"
    ++ "0000000000feffffff01f0ca052a010000001976a914222222222222222222222222222222"
    ++ "222222222288ac66000000").

Definition header103_raw : list byte :=
  hex ("00000020abababababababababababababababababababababababababababababababab"
    ++ "de183503ac6b070cf9c1c3d613e92e57460d556505145e54577ece3dc409fa73"
    ++ "00e10b5effff7f2000000000").

(** The block: header, transaction count, the two transactions. *)
Definition block103_raw : list byte :=
  header103_raw ++ hex "02" ++ coinbase103_raw ++ spend_raw.

Definition coinbase103 : MsgTx :=
  {| tx_Version := 2;
     tx_TxIn := [ {| PreviousOutPoint := {| op_Hash := zeroHash; op_Index := MaxUint32 |};
                     SignatureScript := [x01; x67; x01; x01];
                     Witness := [];
                     Sequence := 4294967295 |} ];
     tx_TxOut := [ {| Value := 5000000000;
                      PkScript := hex "76a914111111111111111111111111111111111111111188ac" |} ];
     tx_LockTime := 0 |}.

(** A block whose coinbase script pushes the height as two bytes, 0x67
    0x00, and then the extra nonce. *)
Definition coinbase103b_raw : list byte :=
  hex ("02000000010000000000000000000000000000000000000000000000000000000000000000"
    ++ "ffffffff050267000101ffffffff0100f2052a010000001976a91411111111111111111111"
    ++ "1111111111111111111188ac00000000").

Definition block103b_raw : list byte :=
  hex ("00000020abababababababababababababababababababababababababababababababab"
    ++ "34ec7d8c56fad9a0723546712b1f5e94317842741d9ca8559e1d45f36a1e7885"
    ++ "00e10b5effff7f2000000000")
  ++ hex "01" ++ coinbase103b_raw.

(** A block whose coinbase script is the single push of the two bytes 0x67
    0x00. *)
Definition block103c_raw : list byte :=
  hex ("00000020abababababababababababababababababababababababababababababababab"
    ++ "7235cdd5da2e8b95ca7340ecdd957ea6765e13ac628caffbd710e6f6e3d70007"
    ++ "00e10b5effff7f2000000000")
  ++ hex "01"
  ++ hex ("02000000010000000000000000000000000000000000000000000000000000000000000000"
       ++ "ffffffff03026700ffffffff0100f2052a010000001976a9141111111111111111111111"
       ++ "11111111111111111188ac00000000").

Definition txin103 : TxIn :=
  {| PreviousOutPoint := {| op_Hash := zeroHash; op_Index := MaxUint32 |};
     SignatureScript := [x01; x67; x01; x01];
     Witness := [];
     Sequence := 4294967295 |}.

Definition spend103 : MsgTx :=
  {| tx_Version := 2;
     tx_TxIn := [ {| PreviousOutPoint :=
                       {| op_Hash := hex ("000102030405060708090a0b0c0d0e0f"
                                       ++ "101112131415161718191a1b1c1d1e1f");
                          op_Index := 0 |};
                     SignatureScript := [];
                     Witness := [];
                     Sequence := 4294967294 |} ];
     tx_TxOut := [ {| Value := 4999990000;
                      PkScript := hex "76a914222222222222222222222222222222222222222288ac" |} ];
     tx_LockTime := 102 |}.

(** [block103_raw], decoded. *)
Definition block103 : MsgBlock :=
  {| Header := {| bh_Version := 536870912;
                  PrevBlock := repeat xab 32;
                  MerkleRoot := hex ("de183503ac6b070cf9c1c3d613e92e57"
                                  ++ "460d556505145e54577ece3dc409fa73");
                  Timestamp := 1577836800;
                  Bits := 545259519;
                  Nonce := 0 |};
     Transactions := [coinbase103; spend103] |}.

(** A block with the spending transaction alone. *)
Definition spend_only_raw : list byte :=
  header103_raw ++ hex "01" ++ spend_raw.

(** A block with two coinbase transactions: the one of [block103_raw], and
    one whose script pushes the height 104 in four bytes and the extra
    nonce. *)
Definition two_coinbases_raw : list byte :=
  header103_raw ++ hex "02" ++ coinbase103_raw
  ++ hex ("02000000010000000000000000000000000000000000000000000000000000000000000000"
       ++ "ffffffff0704680000000101ffffffff0100f2052a010000001976a91411111111111111"
       ++ "1111111111111111111111111188ac00000000").

(** A block whose coinbase script pushes the height 104 in four bytes. *)
Definition block104_raw : list byte :=
  header103_raw ++ hex "01"
  ++ hex ("02000000010000000000000000000000000000000000000000000000000000000000000000"
       ++ "ffffffff0704680000000101ffffffff0100f2052a010000001976a91411111111111111"
       ++ "1111111111111111111111111188ac00000000").

(** The genesis block of the main chain: header and coinbase transaction. *)
Definition genesis_header_raw : list byte :=
  hex ("0100000000000000000000000000000000000000000000000000000000000000000000003b"
    ++ "a3edfd7a7b12b27ac72c3e67768f617fc81bc3888a51323a9fb8aa4b1e5e4a29ab5f49ffff"
    ++ "001d1dac2b7c").

Definition genesis_coinbase_raw : list byte :=
  hex ("01000000010000000000000000000000000000000000000000000000000000000000000000"
    ++ "ffffffff4d04ffff001d0104455468652054696d65732030332f4a616e2f3230303920436861"
    ++ "6e63656c6c6f72206f6e206272696e6b206f66207365636f6e64206261696c6f757420666f72"
    ++ "2062616e6b73ffffffff0100f2052a01000000434104678afdb0fe5548271967f1a67130b710"
    ++ "5cd6a828e03909a67962e0ea1f61deb649f6bc3f4cef38c4f35504e51ec112de5c384df7ba0b"
    ++ "8d578a4c702b6bf11d5fac00000000").

Definition genesis_raw : list byte :=
  genesis_header_raw ++ hex "01" ++ genesis_coinbase_raw.

End Samples.

(** ** processMessage *)

Definition topicRawBlock : string := "rawblock".
Definition topicRawTxWithFee : string := "rawtxwithfee".

(** What [processMessage] hands over, and on which channel. *)
Inductive delivery :=
| ToIncomingTx (tx : Transaction)      (* z.IncomingTx <- *tx *)
| ToIncomingBlocks (block : Block).    (* z.IncomingBlocks <- *block *)

Inductive message_error :=
| ErrParse (e : error)                 (* the parser's error, returned as it is *)
| ErrUnknownTopic (topic : string).    (* "unknown topic %s" *)

Section Dispatch.

Context {W : WireLib}.

(** [now] is what [time.Now().UTC()] returns. *)
Definition processMessage (now : Time) (topic : string) (payload : list (list byte))
  : outcome message_error delivery :=
  let firstSeen := now in
  if String.eqb topic topicRawTxWithFee then
    match parseTransaction firstSeen payload with
    | Err e => Err (ErrParse e)
    | Panic p => Panic p
    | Ok tx => Ok (ToIncomingTx tx)
    end
  else if String.eqb topic topicRawBlock then
    match parseBlock firstSeen payload with
    | Err e => Err (ErrParse e)
    | Panic p => Panic p
    | Ok block => Ok (ToIncomingBlocks block)
    end
  else Err (ErrUnknownTopic topic).

End Dispatch.

(** ** ZMQSubscriber.Run *)

Module Subscriber.

(** The receive timeout [Run] sets, [time.Second], in nanoseconds. *)
Definition RcvTimeo : Z := 1000000000.

(** What [z.socket.RecvMessageBytes(0)] returns. *)
Inductive received :=
| EAGAIN                               (* no message within the receive timeout *)
| EINTR                                (* the call was interrupted *)
| RecvError (e : lib_error)            (* any other error *)
| Message (msg : list (list byte)).

(** What one round of the loop finds, in the order in which it looks: the
    flag [z.cancel] as the loop condition reads it, a task waiting to send
    its error on [parseErrors] as the [select] finds it, what the receive
    returns, and how long the receive took. *)
Record round := {
  cancel : bool;
  parseError : option message_error;
  recv : received;
  waited : Z
}.

Inductive run_error :=
| ErrSetRcvtimeo (e : lib_error)       (* "could not set a receive timeout: %s" *)
| ErrTask (e : message_error)          (* the error a task sent, returned as it is *)
| ErrReceive (e : lib_error).          (* "could not receive ZMQ message: %s" *)

(** How a run ended: what it returned ([Ok tt] for nil), the round in which
    it returned (rounds count from 0), the time it spent in the receives,
    and the tasks it started, each with its topic and payload. *)
Record ended := {
  result : outcome run_error unit;
  rounds : nat;
  elapsed : Z;
  tasks : list (string * list (list byte))
}.

(** The loop [for !z.cancel].  [env i] is what round [i] finds.  The loop
    goes on for as long as nothing ends it: [fuel] bounds its rounds, and
    [None] is a run that is still going after them.  A task runs
    [processMessage] on its own; the loop sees of it the error it sends. *)
Fixpoint runLoop (fuel : nat) (env : nat -> round) (i : nat) (spent : Z)
    (started : list (string * list (list byte))) : option ended :=
  match fuel with
  | O => None
  | S fuel' =>
      let o := env i in
      if cancel o then
        Some {| result := Ok tt; rounds := i; elapsed := spent; tasks := started |}
      else
        match parseError o with
        | Some e =>
            Some {| result := Err (ErrTask e); rounds := i; elapsed := spent;
                    tasks := started |}
        | None =>
            match recv o with
            | EAGAIN => runLoop fuel' env (S i) (spent + waited o) started
            | EINTR => runLoop fuel' env (S i) (spent + waited o) started
            | RecvError e =>
                Some {| result := Err (ErrReceive e); rounds := i;
                        elapsed := spent + waited o; tasks := started |}
            | Message msg =>
                match msg with
                | [] =>
                    Some {| result := Panic IndexOutOfRange; rounds := i;
                            elapsed := spent + waited o; tasks := started |}
                | topic :: payload =>
                    runLoop fuel' env (S i) (spent + waited o)
                      (started ++ [(string_of_list_byte topic, payload)])
                end
            end
        end
  end.

(** [Run]; [setRcvtimeo] is the error of [SetRcvtimeo], if it fails.  The
    deferred [socket.Close] runs on every return. *)
Definition Run (fuel : nat) (setRcvtimeo : option lib_error) (env : nat -> round)
  : option ended :=
  match setRcvtimeo with
  | Some e =>
      Some {| result := Err (ErrSetRcvtimeo e); rounds := 0; elapsed := 0; tasks := [] |}
  | None => runLoop fuel env 0 0 []
  end.

End Subscriber.

(** ** bitcoinrpcclient *)

Module RPCClient.

(** [time.Duration]: nanoseconds in an [int64]. *)
Definition Millisecond : Z := 1000000.
Definition Second : Z := 1000 * Millisecond.

Definition checkInterval : Z := 100 * Millisecond.

Inductive wait_error :=
| ErrTimedOut (timeout : Z).           (* "timedout after %s while waiting ..." *)

(** What a run of [waitTillRPCServerReady] did: the error it returned
    ([None] for nil), the calls of [GetBlockCount] it made and the time it
    spent in [time.Sleep]. *)
Record waited := {
  returned : option wait_error;
  calls : nat;
  slept : Z
}.

(** The loop [for currentWaitTime < timeout].  [GetBlockCount i] is the
    answer of the server to the call number [i].  The loop is not
    structural: [fuel] bounds its rounds, [None] is a run that needs more. *)
Fixpoint waitLoop (fuel : nat) (GetBlockCount : nat -> result Z)
    (timeout currentWaitTime : Z) (called : nat) (asleep : Z) : option waited :=
  match fuel with
  | O => None
  | S fuel' =>
      if currentWaitTime <? timeout then
        match GetBlockCount called with
        | Failure _ =>
            waitLoop fuel' GetBlockCount timeout
              (wrap_int (currentWaitTime + checkInterval))
              (S called) (asleep + checkInterval)
        | Success _ =>
            Some {| returned := None; calls := S called; slept := asleep |}
        end
      else
        Some {| returned := Some (ErrTimedOut timeout); calls := called; slept := asleep |}
  end.

Definition waitTillRPCServerReady (fuel : nat) (GetBlockCount : nat -> result Z)
    (timeout : Z) : option waited :=
  waitLoop fuel GetBlockCount timeout (wrap_int (0 * Second)) 0 0.

(** The rounds a run with this timeout can take: the least [n] with
    [n * checkInterval >= timeout]. *)
Definition rounds (timeout : Z) : nat :=
  Z.to_nat ((timeout + checkInterval - 1) / checkInterval).

End RPCClient.

(** ** Notions used by the statements *)

(** A slice lies within an array of [n] bytes. *)
Definition wf_slice (n : nat) (s : slice) : Prop :=
  match s with
  | SScript off len => (off + len <= n)%nat
  | _ => True
  end.

(** Right-padding with zero bytes to four bytes. *)
Definition rightPad4 (bs : list byte) : list byte :=
  bs ++ repeat x00 (4 - length bs).

(** The transaction as the loop of [parseBlock] hashes it: a coinbase
    transaction after [parseHeight] has run on its input, any other
    transaction as decoded. *)
Definition hashed (t : MsgTx) : MsgTx :=
  if IsCoinBaseTx t then
    match nth_error (tx_TxIn t) 0 with
    | Some txin => withScript t (snd (parseHeight txin))
    | None => t
    end
  else t.

(** The identifier the loop appends for a transaction. *)
Definition txid_in_loop {W : WireLib} (t : MsgTx) : Hash32 :=
  NewHashFromArray (TxHash (hashed t)).

(** The value of an outcome or of a result, if there is one. *)
Definition value {E A} (r : outcome E A) : option A :=
  match r with Ok a => Some a | _ => None end.

Definition decoded {A} (r : result A) : option A :=
  match r with Success a => Some a | Failure _ => None end.

(** The script with the [k] bytes from position [from] on set to zero. *)
Definition zeroed (script : list byte) (from k : nat) : list byte :=
  firstn from script ++ repeat x00 k ++ skipn (from + k) script.

(** The first call from number [from] on, among [count] calls, that the
    server answers without an error. *)
Fixpoint firstAnswer (GetBlockCount : nat -> result Z) (from count : nat) : option nat :=
  match count with
  | O => None
  | S count' =>
      match GetBlockCount from with
      | Success _ => Some from
      | Failure _ => firstAnswer GetBlockCount (S from) count'
      end
  end.

(** A round after which the loop of [Run] goes on: the flag is not set, no
    task has an error to send, and the receive times out, is interrupted or
    brings a message. *)
Definition goes_on (o : Subscriber.round) : bool :=
  negb (Subscriber.cancel o)
  && match Subscriber.parseError o with None => true | Some _ => false end
  && match Subscriber.recv o with
     | Subscriber.EAGAIN | Subscriber.EINTR | Subscriber.Message (_ :: _) => true
     | _ => false
     end.

(** The time the receives of the [n] rounds from round [i] on take. *)
Fixpoint waitedFrom (env : nat -> Subscriber.round) (i n : nat) : Z :=
  match n with
  | O => 0
  | S n' => Subscriber.waited (env i) + waitedFrom env (S i) n'
  end.

(** The messages those rounds receive, as topic and payload. *)
Fixpoint messagesFrom (env : nat -> Subscriber.round) (i n : nat)
  : list (string * list (list byte)) :=
  match n with
  | O => []
  | S n' =>
      match Subscriber.recv (env i) with
      | Subscriber.Message (topic :: payload) =>
          (string_of_list_byte topic, payload) :: messagesFrom env (S i) n'
      | _ => messagesFrom env (S i) n'
      end
  end.

(** * Properties *)

Unset Implicit Arguments.

(** ** Integers and little-endian decoding *)

Lemma u8_range (b : byte) : 0 <= u8 b < 256.
Proof.
  unfold u8. pose proof (Byte.to_N_bounded b). lia.
Qed.

Lemma wrap_int_fits (z : Z) : fits_int z -> wrap_int z = z.
Proof.
  unfold fits_int, min_int, max_int, wrap_int. intros H.
  rewrite Z.mod_small; lia.
Qed.

Lemma wrap_int_add_l (a b : Z) : wrap_int (wrap_int a + b) = wrap_int (a + b).
Proof.
  unfold wrap_int.
  replace ((a + 2 ^ 63) mod 2 ^ 64 - 2 ^ 63 + b + 2 ^ 63)
    with ((a + 2 ^ 63) mod 2 ^ 64 + b) by lia.
  rewrite Zplus_mod_idemp_l. f_equal. f_equal. lia.
Qed.

(** Below [2^n], or-ing in a value shifted by [n] bits adds it. *)
Lemma lor_shiftl_add (x y n : Z) :
  0 <= n -> 0 <= x < 2 ^ n -> Z.lor x (Z.shiftl y n) = x + y * 2 ^ n.
Proof.
  intros Hn Hx.
  rewrite Z.shiftl_mul_pow2 by assumption.
  assert (Hland : Z.land x (y * 2 ^ n) = 0).
  { apply Z.bits_inj'. intros i Hi.
    rewrite Z.land_spec, Z.bits_0.
    destruct (Z.lt_ge_cases i n) as [Hlt | Hge].
    - rewrite Z.mul_pow2_bits_low by assumption. apply andb_false_r.
    - assert (Hsmall : Z.testbit x i = false).
      { apply Z.testbit_false; [assumption |].
        rewrite Z.div_small; [reflexivity |].
        split; [lia |].
        apply Z.lt_le_trans with (2 ^ n); [lia |].
        apply Z.pow_le_mono_r; lia. }
      rewrite Hsmall. reflexivity. }
  rewrite <- Z.lxor_lor by assumption.
  symmetry. apply Z.add_nocarry_lxor. assumption.
Qed.

Lemma le_value_range (bs : list byte) :
  0 <= le_value bs < 256 ^ Z.of_nat (length bs).
Proof.
  induction bs as [| b tl IH].
  - simpl. lia.
  - cbn [le_value length]. rewrite Nat2Z.inj_succ, Z.pow_succ_r by lia.
    pose proof (u8_range b). lia.
Qed.

Lemma le_value_app (a b : list byte) :
  le_value (a ++ b) = le_value a + 256 ^ Z.of_nat (length a) * le_value b.
Proof.
  induction a as [| x a IH].
  - cbn [app le_value length]. change (Z.of_nat 0) with 0.
    rewrite Z.pow_0_r. lia.
  - cbn [app le_value length]. rewrite IH, Nat2Z.inj_succ, Z.pow_succ_r by lia.
    ring.
Qed.

Lemma le_value_zeros (k : nat) : le_value (repeat x00 k) = 0.
Proof.
  induction k as [| k IH]; [reflexivity |].
  cbn [repeat le_value]. rewrite IH. reflexivity.
Qed.

(** Zero bytes on the right do not change the value. *)
Lemma le_value_pad (bs : list byte) (k : nat) :
  le_value (bs ++ repeat x00 k) = le_value bs.
Proof.
  rewrite le_value_app, le_value_zeros. lia.
Qed.

Lemma Uint32_le_value (b0 b1 b2 b3 : byte) (tl : list byte) :
  LittleEndian_Uint32 (b0 :: b1 :: b2 :: b3 :: tl) = Some (le_value [b0; b1; b2; b3]).
Proof.
  pose proof (u8_range b0). pose proof (u8_range b1).
  pose proof (u8_range b2). pose proof (u8_range b3).
  cbn [LittleEndian_Uint32 le_value]. f_equal.
  rewrite (lor_shiftl_add (u8 b0) (u8 b1) 8) by lia.
  rewrite (lor_shiftl_add _ (u8 b2) 16) by lia.
  rewrite (lor_shiftl_add _ (u8 b3) 24) by lia.
  lia.
Qed.

Lemma Uint64_le_value (F : list byte) :
  length F = 8%nat -> LittleEndian_Uint64 F = Some (le_value F).
Proof.
  intros HF.
  destruct F as [| b0 [| b1 [| b2 [| b3 [| b4 [| b5 [| b6 [| b7 [| ? ?]]]]]]]]];
    try discriminate HF.
  pose proof (u8_range b0). pose proof (u8_range b1).
  pose proof (u8_range b2). pose proof (u8_range b3).
  pose proof (u8_range b4). pose proof (u8_range b5).
  pose proof (u8_range b6). pose proof (u8_range b7).
  cbn [LittleEndian_Uint64 le_value]. f_equal.
  rewrite (lor_shiftl_add (u8 b0) (u8 b1) 8) by lia.
  rewrite (lor_shiftl_add _ (u8 b2) 16) by lia.
  rewrite (lor_shiftl_add _ (u8 b3) 24) by lia.
  rewrite (lor_shiftl_add _ (u8 b4) 32) by lia.
  rewrite (lor_shiftl_add _ (u8 b5) 40) by lia.
  rewrite (lor_shiftl_add _ (u8 b6) 48) by lia.
  rewrite (lor_shiftl_add _ (u8 b7) 56) by lia.
  lia.
Qed.

(** ** Slices and [append] *)

Lemma firstn_exact {A} (l1 l2 : list A) (n : nat) :
  length l1 = n -> firstn n (l1 ++ l2) = l1.
Proof.
  intros <-. rewrite firstn_app, firstn_all, Nat.sub_diag. cbn. apply app_nil_r.
Qed.

Lemma skipn_exact {A} (l1 l2 : list A) (n : nat) :
  length l1 = n -> skipn n (l1 ++ l2) = l2.
Proof.
  intros <-. rewrite skipn_app, skipn_all, Nat.sub_diag. reflexivity.
Qed.

(** A script with room behind a slice splits around the slice and the byte
    that follows it. *)
Lemma script_split (script : list byte) (off len : nat) :
  (off + len < length script)%nat ->
  exists A B c D,
    script = A ++ B ++ c :: D /\ length A = off /\ length B = len.
Proof.
  intros Hlt.
  destruct (skipn (off + len) script) as [| c D] eqn:Hrest.
  - apply (f_equal (@length byte)) in Hrest.
    rewrite length_skipn in Hrest. cbn in Hrest. lia.
  - exists (firstn off script), (firstn len (skipn off script)), c, D.
    repeat split.
    + rewrite <- Hrest.
      replace (off + len)%nat with (len + off)%nat by lia.
      rewrite <- skipn_skipn.
      rewrite (firstn_skipn len (skipn off script)).
      symmetry. apply firstn_skipn.
    + rewrite length_firstn. lia.
    + rewrite length_firstn, length_skipn. lia.
Qed.

Lemma slice_bytes_length (script : list byte) (s : slice) :
  wf_slice (length script) s -> length (slice_bytes script s) = slice_len s.
Proof.
  destruct s as [| off len | bs]; cbn; intros H; try reflexivity.
  rewrite length_firstn, length_skipn. lia.
Qed.

(** [append] extends the contents of the slice by the byte, whether it
    writes in place or moves; the script keeps its length. *)
Lemma append_spec (script : list byte) (s : slice) (b : byte) :
  wf_slice (length script) s ->
  slice_bytes (fst (append (script, s) b)) (snd (append (script, s) b))
    = slice_bytes script s ++ [b]
  /\ wf_slice (length (fst (append (script, s) b))) (snd (append (script, s) b))
  /\ length (fst (append (script, s) b)) = length script
  /\ slice_len (snd (append (script, s) b)) = S (slice_len s).
Proof.
  intros Hwf. destruct s as [| off len | bs]; cbn [append].
  - cbn. auto.
  - destruct (off + len <? length script)%nat eqn:Hroom.
    + apply Nat.ltb_lt in Hroom.
      destruct (script_split script off len Hroom) as (A & B & c & D & -> & HA & HB).
      cbn [fst snd slice_bytes slice_len wf_slice]. unfold store.
      assert (Hstore :
        firstn (off + len) (A ++ B ++ c :: D) ++ b :: skipn (S (off + len)) (A ++ B ++ c :: D)
        = A ++ (B ++ [b]) ++ D).
      { replace (A ++ B ++ c :: D) with ((A ++ B) ++ c :: D) by (rewrite <- app_assoc; reflexivity).
        rewrite firstn_exact by (rewrite length_app; lia).
        replace ((A ++ B) ++ c :: D) with (((A ++ B) ++ [c]) ++ D)
          by (rewrite <- !app_assoc; reflexivity).
        rewrite skipn_exact by (rewrite !length_app; cbn; lia).
        rewrite <- !app_assoc. reflexivity. }
      rewrite Hstore.
      rewrite !skipn_exact by assumption.
      rewrite firstn_exact by (rewrite length_app; cbn; lia).
      rewrite firstn_exact by assumption.
      repeat split; repeat (rewrite length_app || cbn [length]); lia.
    + cbn. rewrite length_app. cbn.
      apply Nat.ltb_ge in Hroom. cbn in Hwf.
      rewrite length_firstn, length_skipn.
      repeat split; auto; lia.
  - cbn. rewrite length_app. cbn. repeat split; auto; lia.
Qed.

(** The padding loop leaves a slice of at least four bytes: the original
    contents followed by the zeros that were missing. *)
Lemma padLoop_spec (rounds : nat) (script : list byte) (s : slice) :
  wf_slice (length script) s ->
  (4 <= rounds + slice_len s)%nat ->
  slice_bytes (fst (padLoop rounds (script, s))) (snd (padLoop rounds (script, s)))
    = slice_bytes script s ++ repeat x00 (4 - slice_len s)
  /\ length (fst (padLoop rounds (script, s))) = length script.
Proof.
  revert script s. induction rounds as [| k IH]; intros script s Hwf Hlen.
  - cbn [padLoop fst snd].
    replace (4 - slice_len s)%nat with 0%nat by lia.
    cbn. rewrite app_nil_r. auto.
  - cbn [padLoop snd]. destruct (slice_len s <? 4)%nat eqn:Hshort.
    + apply Nat.ltb_lt in Hshort.
      destruct (append_spec script s x00 Hwf) as (Hb & Hwf' & Hl & Hs).
      destruct (append (script, s) x00) as [script1 s1] eqn:Happ.
      cbn [fst snd] in *.
      destruct (IH script1 s1 Hwf' ltac:(lia)) as (Hb' & Hl').
      rewrite Hb', Hl', Hb, Hs. split; [| assumption].
      rewrite <- app_assoc. f_equal.
      replace (4 - slice_len s)%nat with (S (4 - S (slice_len s)))%nat by lia.
      reflexivity.
    + apply Nat.ltb_ge in Hshort. cbn [fst snd].
      replace (4 - slice_len s)%nat with 0%nat by lia.
      cbn. rewrite app_nil_r. auto.
Qed.

(** Four rounds are enough: the condition of the loop is false after them. *)
Lemma padLoop_exits (rounds : nat) (script : list byte) (s : slice) :
  wf_slice (length script) s ->
  (4 <= rounds + slice_len s)%nat ->
  (4 <= slice_len (snd (padLoop rounds (script, s))))%nat.
Proof.
  revert script s. induction rounds as [| k IH]; intros script s Hwf Hlen.
  - cbn. lia.
  - cbn [padLoop snd]. destruct (slice_len s <? 4)%nat eqn:Hshort.
    + destruct (append_spec script s x00 Hwf) as (_ & Hwf' & _ & Hs).
      destruct (append (script, s) x00) as [script1 s1].
      cbn [fst snd] in *. apply IH; [assumption | lia].
    + apply Nat.ltb_ge in Hshort. exact Hshort.
Qed.

(** ** [PushedData] and [parseHeight] *)

Lemma option_map_cons {A} (a : A) (x : option (list A)) (l : list A) :
  option_map (cons a) x = Some l -> exists l', x = Some l' /\ l = a :: l'.
Proof.
  destruct x as [l' |]; cbn; intros H; inversion H. eauto.
Qed.

(** Every slice [scanPushes] returns lies within the script. *)
Lemma scanPushes_wf (rest : list byte) :
  forall (off skip : nat) (data : list slice),
    scanPushes rest off skip = Some data ->
    Forall (wf_slice (off + length rest)) data.
Proof.
  induction rest as [| op tl IH]; intros off skip data H; cbn [scanPushes] in H.
  - inversion H. constructor.
  - assert (Hstep : forall k l, scanPushes tl (S off) k = Some l ->
                                Forall (wf_slice (off + length (op :: tl))) l).
    { intros k l Hl. apply IH in Hl. cbn [length].
      replace (off + S (length tl))%nat with (S off + length tl)%nat by lia.
      exact Hl. }
    destruct skip as [| k]; [| eapply Hstep; eassumption].
    destruct (u8 op =? OP_0).
    { apply option_map_cons in H. destruct H as (l & Hl & ->).
      constructor; [exact I | eapply Hstep; eassumption]. }
    destruct (u8 op <=? OP_DATA_75).
    { destruct (length tl <? Z.to_nat (u8 op))%nat eqn:Hshort; [discriminate |].
      apply Nat.ltb_ge in Hshort.
      apply option_map_cons in H. destruct H as (l & Hl & ->).
      constructor; [cbn [wf_slice length]; lia | eapply Hstep; eassumption]. }
    destruct (u8 op =? OP_PUSHDATA1).
    { destruct tl as [| l0 d]; [discriminate |].
      destruct (length d <? Z.to_nat (u8 l0))%nat eqn:Hshort; [discriminate |].
      apply Nat.ltb_ge in Hshort.
      apply option_map_cons in H. destruct H as (l & Hl & ->).
      constructor; [cbn [wf_slice length]; lia | eapply Hstep; eassumption]. }
    destruct (u8 op =? OP_PUSHDATA2).
    { destruct tl as [| l0 [| l1 d]]; try discriminate.
      match type of H with
      | (if (length d <? ?n)%nat then _ else _) = _ =>
          destruct (length d <? n)%nat eqn:Hshort; [discriminate |]
      end.
      apply Nat.ltb_ge in Hshort.
      apply option_map_cons in H. destruct H as (l & Hl & ->).
      constructor; [cbn [wf_slice length]; lia | eapply Hstep; eassumption]. }
    destruct (u8 op =? OP_PUSHDATA4).
    { destruct tl as [| l0 [| l1 [| l2 [| l3 d]]]]; try discriminate.
      match type of H with
      | (if (length d <? ?n)%nat then _ else _) = _ =>
          destruct (length d <? n)%nat eqn:Hshort; [discriminate |]
      end.
      apply Nat.ltb_ge in Hshort.
      apply option_map_cons in H. destruct H as (l & Hl & ->).
      constructor; [cbn [wf_slice length]; lia | eapply Hstep; eassumption]. }
    eapply Hstep; eassumption.
Qed.

Lemma PushedData_wf (script : list byte) (data : list slice) :
  PushedData script = Success data -> Forall (wf_slice (length script)) data.
Proof.
  unfold PushedData. destruct (scanPushes script 0 0) as [l |] eqn:H; [| discriminate].
  intros [= <-]. apply (scanPushes_wf script 0%nat 0%nat _ H).
Qed.

(** A list of at least four bytes read by [LittleEndian_Uint32]. *)
Lemma Uint32_firstn (bs : list byte) :
  (4 <= length bs)%nat ->
  LittleEndian_Uint32 bs = Some (le_value (firstn 4 bs)).
Proof.
  destruct bs as [| b0 [| b1 [| b2 [| b3 tl]]]]; cbn [length]; try lia.
  intros _. apply Uint32_le_value.
Qed.

Lemma le_value_4_fits (bs : list byte) :
  fits_int (le_value (firstn 4 bs)) /\ 0 <= le_value (firstn 4 bs) < 2 ^ 32.
Proof.
  pose proof (le_value_range (firstn 4 bs)) as Hr.
  assert (Hl : (length (firstn 4 bs) <= 4)%nat) by (rewrite length_firstn; lia).
  assert (Hp : 256 ^ Z.of_nat (length (firstn 4 bs)) <= 256 ^ 4)
    by (apply Z.pow_le_mono_r; lia).
  unfold fits_int, min_int, max_int. lia.
Qed.

(** What [parseHeight] returns on a script with exactly two pushed items:
    the first four bytes of the first item, right-padded, as a number; and
    the script as the padding loop left it. *)
Lemma parseHeight_two (txin : TxIn) (d0 d1 : slice) :
  PushedData (SignatureScript txin) = Success [d0; d1] ->
  parseHeight txin
  = (Ok (le_value (firstn 4 (rightPad4 (slice_bytes (SignatureScript txin) d0)))),
     fst (padLoop 4 (SignatureScript txin, d0))).
Proof.
  intros Hdata. unfold parseHeight. rewrite Hdata. cbn [length Nat.eqb negb].
  pose proof (PushedData_wf _ _ Hdata) as Hwf.
  inversion Hwf as [| ? ? Hwf0 _]; subst.
  destruct (padLoop_spec 4 (SignatureScript txin) d0 Hwf0 ltac:(lia)) as (Hb & _).
  destruct (padLoop 4 (SignatureScript txin, d0)) as [script' heightLE].
  cbn [fst snd] in *.
  assert (Hpad : slice_bytes script' heightLE
                 = rightPad4 (slice_bytes (SignatureScript txin) d0)).
  { rewrite Hb. unfold rightPad4. rewrite slice_bytes_length by assumption.
    reflexivity. }
  rewrite Hpad, Uint32_firstn.
  - rewrite wrap_int_fits by apply le_value_4_fits. reflexivity.
  - unfold rightPad4. rewrite length_app, repeat_length. lia.
Qed.

Lemma parseHeight_count (txin : TxIn) (data : list slice) :
  PushedData (SignatureScript txin) = Success data ->
  length data <> 2%nat ->
  parseHeight txin = (Err (ErrUnexpectedCount (length data)), SignatureScript txin).
Proof.
  intros Hdata Hn. unfold parseHeight. rewrite Hdata.
  destruct (length data =? 2)%nat eqn:E; [apply Nat.eqb_eq in E; contradiction |].
  reflexivity.
Qed.

Lemma parseHeight_malformed (txin : TxIn) (e : lib_error) :
  PushedData (SignatureScript txin) = Failure e ->
  parseHeight txin = (Err (ErrPushedData e), SignatureScript txin).
Proof.
  intros Hdata. unfold parseHeight. rewrite Hdata. reflexivity.
Qed.

(** [parseHeight] returns a height or an error: neither index in it can be
    out of range. *)
Lemma parseHeight_cases (txin : TxIn) :
  (exists d0 d1, PushedData (SignatureScript txin) = Success [d0; d1]
     /\ fst (parseHeight txin)
        = Ok (le_value (firstn 4 (rightPad4 (slice_bytes (SignatureScript txin) d0)))))
  \/ (exists e, fst (parseHeight txin) = Err e
        /\ snd (parseHeight txin) = SignatureScript txin
        /\ forall d0 d1, PushedData (SignatureScript txin) <> Success [d0; d1]).
Proof.
  destruct (PushedData (SignatureScript txin)) as [data | e] eqn:Hdata.
  - destruct data as [| d0 [| d1 [| d2 tl]]].
    + right. rewrite (parseHeight_count txin _ Hdata) by (cbn; lia).
      eexists. repeat split. intros ? ? [=].
    + right. rewrite (parseHeight_count txin _ Hdata) by (cbn; lia).
      eexists. repeat split. intros ? ? [=].
    + left. exists d0, d1. rewrite (parseHeight_two txin _ _ Hdata). auto.
    + right. rewrite (parseHeight_count txin _ Hdata) by (cbn; lia).
      eexists. repeat split. intros ? ? [=].
  - right. rewrite (parseHeight_malformed txin _ Hdata).
    eexists. repeat split. intros ? ? [=].
Qed.

(** ** The loop of [parseBlock] *)

Lemma IsCoinBaseTx_input (t : MsgTx) :
  IsCoinBaseTx t = true -> exists txin, tx_TxIn t = [txin].
Proof.
  unfold IsCoinBaseTx. destruct (tx_TxIn t) as [| txin [| ? ?]]; try discriminate.
  eauto.
Qed.

Section ParserFacts.

Context {W : WireLib}.

Lemma txid_in_loop_coinbase (t : MsgTx) (txin : TxIn) :
  IsCoinBaseTx t = true -> tx_TxIn t = [txin] ->
  txid_in_loop t = NewHashFromArray (TxHash (withScript t (snd (parseHeight txin)))).
Proof.
  intros Hcb Htx. unfold txid_in_loop, hashed. rewrite Hcb, Htx. reflexivity.
Qed.

Lemma txid_in_loop_other (t : MsgTx) :
  IsCoinBaseTx t = false -> txid_in_loop t = NewHashFromArray (TxHash t).
Proof.
  intros Hcb. unfold txid_in_loop, hashed. rewrite Hcb. reflexivity.
Qed.

(** A run of the loop that ends normally has appended one hash per
    transaction, in order, and its height is the initial one if it met no
    coinbase transaction, and otherwise one [parseHeight] returned. *)
Lemma txLoop_ok (txs : list MsgTx) :
  forall (h : Z) (acc : list Hash32) (h' : Z) (acc' : list Hash32),
    txLoop txs h acc = Ok (h', acc') ->
    acc' = acc ++ map txid_in_loop txs
    /\ ((h' = h /\ Forall (fun t => IsCoinBaseTx t = false) txs)
        \/ exists t txin, In t txs /\ IsCoinBaseTx t = true
                          /\ tx_TxIn t = [txin]
                          /\ fst (parseHeight txin) = Ok h').
Proof.
  induction txs as [| t rest IH]; intros h acc h' acc' H; cbn [txLoop] in H.
  - inversion H; subst. cbn. rewrite app_nil_r. auto.
  - cbn [map].
    destruct (IsCoinBaseTx t) eqn:Hcb.
    + destruct (IsCoinBaseTx_input t Hcb) as (txin & Hin).
      rewrite (txid_in_loop_coinbase t txin Hcb Hin).
      rewrite Hin in H. cbn [nth_error] in H.
      destruct (parseHeight txin) as [[v | e | p] script'] eqn:Hph; try discriminate.
      apply IH in H. destruct H as (-> & Hh). cbn [snd].
      split; [rewrite <- app_assoc; reflexivity |].
      right. destruct Hh as [(-> & _) | (t' & txin' & Ht' & ? & ? & ?)].
      * exists t, txin. rewrite Hph. cbn; auto.
      * exists t', txin'. cbn; auto.
    + rewrite (txid_in_loop_other t Hcb).
      apply IH in H. destruct H as (-> & Hh).
      split; [rewrite <- app_assoc; reflexivity |].
      destruct Hh as [(-> & Hall) | (t' & txin' & Ht' & ? & ? & ?)].
      * left. auto.
      * right. exists t', txin'. cbn; auto.
Qed.

(** The loop does not panic. *)
Lemma txLoop_no_panic (txs : list MsgTx) :
  forall (h : Z) (acc : list Hash32) (p : panic), txLoop txs h acc <> Panic p.
Proof.
  induction txs as [| t rest IH]; intros h acc p; cbn [txLoop]; [discriminate |].
  destruct (IsCoinBaseTx t) eqn:Hcb; [| apply IH].
  destruct (IsCoinBaseTx_input t Hcb) as (txin & ->). cbn [nth_error].
  destruct (parseHeight_cases txin) as [(d0 & d1 & _ & Hv) | (e & He & _)];
    destruct (parseHeight txin) as [r script']; cbn [fst] in *; subst r;
    [apply IH | discriminate].
Qed.

(** A coinbase transaction for which [parseHeight] returns an error makes
    the loop return an error. *)
Lemma txLoop_err (txs : list MsgTx) :
  forall (h : Z) (acc : list Hash32) (t : MsgTx) (txin : TxIn) (e : height_error),
    In t txs -> IsCoinBaseTx t = true -> tx_TxIn t = [txin] ->
    fst (parseHeight txin) = Err e ->
    exists e', txLoop txs h acc = Err e'.
Proof.
  induction txs as [| t0 rest IH]; intros h acc t txin e Hin Hcb Htx He; [contradiction |].
  cbn [txLoop].
  destruct (IsCoinBaseTx t0) eqn:Hcb0.
  - destruct (IsCoinBaseTx_input t0 Hcb0) as (txin0 & Htx0).
    rewrite Htx0. cbn [nth_error].
    destruct (parseHeight txin0) as [[v | e0 | p] script'] eqn:Hph.
    + destruct Hin as [-> | Hin].
      * rewrite Htx in Htx0. inversion Htx0; subst.
        rewrite Hph in He. discriminate.
      * eapply IH; eassumption.
    + eauto.
    + exfalso.
      destruct (parseHeight_cases txin0) as [(? & ? & _ & Hv) | (? & Hv & _)];
        rewrite Hph in Hv; discriminate.
  - destruct Hin as [-> | Hin]; [congruence |].
    eapply IH; eassumption.
Qed.

(** When [parseHeight] returns the same height [H] for every coinbase
    transaction, the loop ends normally, with [H] if there is one. *)
Lemma txLoop_all (H : Z) (txs : list MsgTx) :
  forall (h : Z) (acc : list Hash32),
    (forall t txin, In t txs -> IsCoinBaseTx t = true -> tx_TxIn t = [txin] ->
                    fst (parseHeight txin) = Ok H) ->
    txLoop txs h acc
    = Ok (if existsb IsCoinBaseTx txs then H else h, acc ++ map txid_in_loop txs).
Proof.
  induction txs as [| t rest IH]; intros h acc Hall.
  - cbn. rewrite app_nil_r. reflexivity.
  - cbn [txLoop existsb map].
    assert (Hrest : forall t0 txin, In t0 rest -> IsCoinBaseTx t0 = true ->
                      tx_TxIn t0 = [txin] -> fst (parseHeight txin) = Ok H)
      by (intros; eapply Hall; [right |..]; eassumption).
    destruct (IsCoinBaseTx t) eqn:Hcb; cbn [orb].
    + destruct (IsCoinBaseTx_input t Hcb) as (txin & Htx).
      rewrite (txid_in_loop_coinbase t txin Hcb Htx).
      rewrite Htx. cbn [nth_error].
      pose proof (Hall t txin (or_introl eq_refl) Hcb Htx) as Hv.
      destruct (parseHeight txin) as [r script']. cbn [fst snd] in *. subst r.
      rewrite (IH H _ Hrest), <- app_assoc. cbn [app].
      destruct (existsb IsCoinBaseTx rest); reflexivity.
    + rewrite (txid_in_loop_other t Hcb).
      rewrite (IH h _ Hrest), <- app_assoc. reflexivity.
Qed.

End ParserFacts.

(** ** [parseBlock] as a whole *)

Section BlockFacts.

Context {W : WireLib}.

(** The height [parseHeight] returns is an unsigned 32-bit number. *)
Lemma parseHeight_range (txin : TxIn) (h : Z) :
  fst (parseHeight txin) = Ok h -> 0 <= h < 2 ^ 32.
Proof.
  intros Hh.
  destruct (parseHeight_cases txin) as [(d0 & d1 & _ & Hv) | (e & He & _)].
  - rewrite Hv in Hh. inversion Hh; subst. apply le_value_4_fits.
  - rewrite He in Hh. discriminate.
Qed.

(** With fewer than two frames, [msg[0]] or [msg[1]] is out of range. *)
Lemma parseBlock_short (firstSeen : Time) (msg : list (list byte)) :
  (length msg < 2)%nat -> parseBlock firstSeen msg = Panic IndexOutOfRange.
Proof.
  destruct msg as [| raw [| ctr rest]]; cbn [length]; intros Hlen;
    [reflexivity | reflexivity | lia].
Qed.

(** The frames after the second are not looked at. *)
Lemma parseBlock_two_frames (firstSeen : Time) (raw ctr : list byte)
    (rest : list (list byte)) :
  parseBlock firstSeen (raw :: ctr :: rest) = parseBlock firstSeen [raw; ctr].
Proof. reflexivity. Qed.

Lemma parseBlock_undecodable (firstSeen : Time) (raw ctr : list byte)
    (rest : list (list byte)) (e : lib_error) :
  BtcDecode raw = Failure e ->
  parseBlock firstSeen (raw :: ctr :: rest) = Err (ErrBtcDecode e).
Proof.
  intros Hdec. unfold parseBlock. cbn [nth_error]. rewrite Hdec. reflexivity.
Qed.

(** A coinbase transaction whose height cannot be extracted fails the
    whole decode. *)
Lemma parseBlock_coinbase_error (firstSeen : Time) (raw ctr : list byte)
    (rest : list (list byte)) (blk : MsgBlock) (t : MsgTx) (txin : TxIn)
    (e : height_error) :
  BtcDecode raw = Success blk ->
  In t (Transactions blk) -> IsCoinBaseTx t = true -> tx_TxIn t = [txin] ->
  fst (parseHeight txin) = Err e ->
  MalformedPayload (parseBlock firstSeen (raw :: ctr :: rest)).
Proof.
  intros Hdec Hin Hcb Htx He. unfold parseBlock. cbn [nth_error]. rewrite Hdec.
  destruct (txLoop_err (Transactions blk) (-1) [] t txin e Hin Hcb Htx He) as (e' & He').
  rewrite He'. cbn [bind]. exists e'. reflexivity.
Qed.

(** A block without a coinbase transaction is rejected. *)
Lemma parseBlock_no_coinbase (firstSeen : Time) (raw ctr : list byte)
    (rest : list (list byte)) (blk : MsgBlock) :
  BtcDecode raw = Success blk ->
  existsb IsCoinBaseTx (Transactions blk) = false ->
  parseBlock firstSeen (raw :: ctr :: rest) = Err ErrHeightNotFound.
Proof.
  intros Hdec Hnone. unfold parseBlock. cbn [nth_error]. rewrite Hdec.
  rewrite (txLoop_all 0).
  - rewrite Hnone. reflexivity.
  - intros t txin Hin Hcb _. exfalso.
    assert (Hex : existsb IsCoinBaseTx (Transactions blk) = true)
      by (apply existsb_exists; eauto).
    congruence.
Qed.

(** What an accepted block is made of: the payload has two frames at
    least, the first decodes, the identifiers are those the loop computed
    in block order, and the height is one that [parseHeight] extracted from
    a coinbase transaction of the block: an unsigned 32-bit number, never
    the initial -1. *)
Lemma parseBlock_accepted (firstSeen : Time) (msg : list (list byte)) (b : Block) :
  parseBlock firstSeen msg = Ok b ->
  exists raw ctr rest blk,
    msg = raw :: ctr :: rest
    /\ BtcDecode raw = Success blk
    /\ TxIDs b = map txid_in_loop (Transactions blk)
    /\ 0 <= Height b < 2 ^ 32
    /\ exists t txin, In t (Transactions blk) /\ IsCoinBaseTx t = true
                      /\ tx_TxIn t = [txin]
                      /\ fst (parseHeight txin) = Ok (Height b).
Proof.
  intros H. destruct msg as [| raw [| ctr rest]]; try discriminate H.
  unfold parseBlock in H. cbn [nth_error] in H.
  destruct (BtcDecode raw) as [blk | e] eqn:Hdec; [| discriminate].
  destruct (txLoop (Transactions blk) (-1) []) as [[h ids] | e | p] eqn:Hloop;
    cbn [bind] in H; try discriminate.
  destruct (h <? 0) eqn:Hneg; [discriminate |].
  apply Z.ltb_ge in Hneg.
  inversion H; subst b; clear H. cbn [TxIDs Height].
  apply txLoop_ok in Hloop. destruct Hloop as (-> & Hh).
  destruct Hh as [(-> & _) | (t & txin & Hin & Hcb & Htx & Hv)]; [lia |].
  pose proof (parseHeight_range txin h Hv) as Hr.
  assert (Hw : wrap_uint32 h = h) by (unfold wrap_uint32; apply Z.mod_small; lia).
  rewrite Hw.
  exists raw, ctr, rest, blk. repeat split; try assumption; try lia.
  exists t, txin. auto.
Qed.

(** When every coinbase transaction of the decoded block yields the height
    [H], and there is one, the block is accepted with that height. *)
Lemma parseBlock_height (firstSeen : Time) (raw ctr : list byte)
    (rest : list (list byte)) (blk : MsgBlock) (H : Z) :
  BtcDecode raw = Success blk ->
  existsb IsCoinBaseTx (Transactions blk) = true ->
  (forall t txin, In t (Transactions blk) -> IsCoinBaseTx t = true ->
                  tx_TxIn t = [txin] -> fst (parseHeight txin) = Ok H) ->
  exists b, parseBlock firstSeen (raw :: ctr :: rest) = Ok b
            /\ Height b = H
            /\ TxIDs b = map txid_in_loop (Transactions blk).
Proof.
  intros Hdec Hsome Hall. unfold parseBlock. cbn [nth_error]. rewrite Hdec.
  rewrite (txLoop_all H _ _ _ Hall), Hsome. cbn [bind app].
  apply existsb_exists in Hsome. destruct Hsome as (t & Hin & Hcb).
  destruct (IsCoinBaseTx_input t Hcb) as (txin & Htx).
  pose proof (parseHeight_range txin H (Hall t txin Hin Hcb Htx)) as Hr.
  destruct (H <? 0) eqn:Hneg; [apply Z.ltb_lt in Hneg; lia |].
  eexists. split; [reflexivity |]. cbn [Height TxIDs].
  split; [unfold wrap_uint32; apply Z.mod_small; lia | reflexivity].
Qed.

End BlockFacts.

(** ** [parseTransaction] *)

Section TransactionFacts.

Context {W : WireLib}.

Lemma parseTransaction_frame_count (firstSeen : Time) (payload : list (list byte)) :
  length payload <> 2%nat ->
  parseTransaction firstSeen payload = Err (ErrPayloadLength (length payload)).
Proof.
  intros Hn. unfold parseTransaction.
  destruct (length payload =? 2)%nat eqn:E; [apply Nat.eqb_eq in E; contradiction |].
  reflexivity.
Qed.

Lemma parseTransaction_short_blob (firstSeen : Time) (blob seq : list byte) :
  (length blob <= 8)%nat ->
  parseTransaction firstSeen [blob; seq] = Err ErrRawtxwithfeeLength.
Proof.
  intros Hlen. unfold parseTransaction. cbn [length Nat.eqb negb nth_error].
  destruct (length blob <=? 8)%nat eqn:E; [reflexivity |].
  apply Nat.leb_gt in E. lia.
Qed.

(** On a blob longer than the fee trailer, the split is at [len - 8]. *)
Lemma parseTransaction_split (firstSeen : Time) (T F seq : list byte) :
  T <> [] -> length F = 8%nat ->
  parseTransaction firstSeen [T ++ F; seq]
  = match Deserialize T with
    | Failure e => Err (ErrDeserialize e)
    | Success wireTx =>
        Ok {| TxID := NewHashFromArray (TxHash wireTx);
              FirstSeen := firstSeen;
              LastRemoved := None;
              Fee := le_value F;
              Weight := wrap_int (SerializeSizeStripped wireTx * 3 + SerializeSize wireTx);
              BlockHeight := 0;
              IndexInBlock := 0 |}
    end.
Proof.
  intros HT HF. unfold parseTransaction. cbn [length Nat.eqb negb nth_error].
  assert (Hlen : length (T ++ F) = (length T + 8)%nat) by (rewrite length_app; lia).
  assert (HTpos : (0 < length T)%nat) by (destruct T; [contradiction | cbn; lia]).
  destruct (length (T ++ F) <=? 8)%nat eqn:E; [apply Nat.leb_le in E; lia |].
  replace (length (T ++ F) - 8)%nat with (length T) by lia.
  rewrite firstn_exact, skipn_exact by reflexivity.
  destruct (Deserialize T) as [wireTx | e]; [| reflexivity].
  rewrite (Uint64_le_value F HF), wrap_int_add_l. reflexivity.
Qed.

End TransactionFacts.

(** ** The storage *)

Lemma migrate_current (v : Z) :
  Storage.migrate v = Ok tt <-> v = Storage.currentVersion.
Proof.
  unfold Storage.migrate. destruct (v =? Storage.currentVersion) eqn:E.
  - apply Z.eqb_eq in E. tauto.
  - apply Z.eqb_neq in E. split; [discriminate | contradiction].
Qed.

(** A new database gets the schema at the current version. *)
Lemma NewStorage_absent :
  fst (Storage.NewStorage Storage.Absent) = Ok tt
  /\ exists db, snd (Storage.NewStorage Storage.Absent) = Storage.Present (Storage.Sqlite db)
                /\ Storage.config db = Some [Some Storage.currentVersion]
                /\ Storage.transaction db = Some [].
Proof.
  split; [reflexivity |]. eexists. repeat split.
Qed.

(** An existing database at the current version opens, untouched. *)
Lemma NewStorage_current (f : Storage.file) :
  Storage.selectVersion f = Success Storage.currentVersion ->
  Storage.NewStorage (Storage.Present f) = (Ok tt, Storage.Present f).
Proof.
  intros Hv. unfold Storage.NewStorage, Storage.getVersion. cbn [Storage.sql_Open String.eqb].
  rewrite Hv. reflexivity.
Qed.

(** ** The reference wire library on known data *)

Example sha256_abc :
  Btcd.sha256 (Samples.hex "616263")
  = Samples.hex "ba7816bf8f01cfea414140de5dae2223b00361a396177a9cb410ff61f20015ad".
Proof. vm_compute. reflexivity. Qed.

(** The identifier of the genesis coinbase transaction and the hash of the
    genesis block, in the byte order of [chainhash.Hash]. *)
Example genesis_hashes :
  option_map (@TxHash Btcd.lib) (decoded (@Deserialize Btcd.lib Samples.genesis_coinbase_raw))
  = Some (rev (Samples.hex "4a5e1e4baab89f3a32518a88c31bc87f618f76673e2cc77ab2127b7afdeda33b"))
  /\ option_map (fun b => @BlockHash Btcd.lib (Header b))
       (decoded (@BtcDecode Btcd.lib Samples.genesis_raw))
     = Some (rev (Samples.hex "000000000019d6689c085ae165831e934ff763ae46a2a6c172b3f1b60a8ce26f")).
Proof. split; vm_compute; reflexivity. Qed.

(** The genesis coinbase script pushes three items: [parseBlock] rejects
    the genesis block. *)
Example genesis_rejected :
  parseBlock (W := Btcd.lib) 0 [Samples.genesis_raw; []]
  = Err (ErrParsingCoinbase (ErrUnexpectedCount 3)).
Proof. vm_compute. reflexivity. Qed.

(** Two pushed items of which the first has five bytes: the first four are
    read. *)
Example long_first_item :
  fst (parseHeight {| PreviousOutPoint := {| op_Hash := zeroHash; op_Index := MaxUint32 |};
                      SignatureScript := [x05; x67; x00; x00; x00; x01; x00];
                      Witness := [];
                      Sequence := MaxUint32 |})
  = Ok 103.
Proof. vm_compute. reflexivity. Qed.

(** A first item of four bytes or more leaves no room for the padding loop
    to write: the script stays as it is. *)
Lemma parseHeight_keeps_script (txin : TxIn) (d0 d1 : slice) :
  PushedData (SignatureScript txin) = Success [d0; d1] ->
  (4 <= slice_len d0)%nat ->
  snd (parseHeight txin) = SignatureScript txin.
Proof.
  intros Hd Hlen. rewrite (parseHeight_two txin d0 d1 Hd). cbn [snd padLoop].
  destruct (slice_len d0 <? 4)%nat eqn:E; [apply Nat.ltb_lt in E; lia | reflexivity].
Qed.

(** The identifiers of an accepted block are as many as its transactions. *)
Lemma TxIDs_length {W : WireLib} (firstSeen : Time) (raw ctr : list byte)
    (rest : list (list byte)) (blk : MsgBlock) (b : Block) :
  BtcDecode raw = Success blk ->
  parseBlock firstSeen (raw :: ctr :: rest) = Ok b ->
  length (TxIDs b) = length (Transactions blk).
Proof.
  intros Hdec Hb.
  destruct (parseBlock_accepted firstSeen _ b Hb)
    as (raw' & ctr' & rest' & blk' & Hmsg & Hdec' & Hids & _).
  injection Hmsg as <- <- <-.
  rewrite Hdec in Hdec'. injection Hdec' as <-.
  rewrite Hids. apply length_map.
Qed.

(** * The claims *)

Import Samples.

(** ** C1: the coinbase height rule *)

(** C1, as the specification states it, does not hold.  It says that height
    extraction succeeds exactly when the script's pushed data is exactly one
    push of at most four bytes.  The script [01 67] pushes one item of one
    byte, and [parseHeight] returns the error "unexpected count 1".  (And
    the script [05 67 00 00 00 01 00] pushes two items, the first of five
    bytes, and [parseHeight] returns the height 103: [long_first_item].) *)
Lemma one_push_is_not_the_rule :
  ~ (forall txin : TxIn,
       (exists h, fst (parseHeight txin) = Ok h)
       <-> (exists d, PushedData (SignatureScript txin) = Success [d]
                      /\ (slice_len d <= 4)%nat)).
Proof.
  intros Hclaim.
  destruct (Hclaim {| PreviousOutPoint := {| op_Hash := zeroHash; op_Index := MaxUint32 |};
                      SignatureScript := [x01; x67];
                      Witness := [];
                      Sequence := MaxUint32 |}) as [_ Hback].
  destruct Hback as (h & Hh).
  - exists (SScript 1 1). split; [reflexivity | cbn; lia].
  - vm_compute in Hh. discriminate Hh.
Qed.

(** C1, amended.  For every decoded block and every coinbase transaction in
    it, height extraction from the input's unlocking script succeeds exactly
    when the script's pushed data consists of exactly two items.  The height
    is then the number the first four bytes of the first item, right-padded
    with zero bytes to four bytes, encode in little-endian order; for a
    first item of at most four bytes that is the item itself, padded.  For
    any other push count, and for a script that does not parse, the decode
    of the block fails with MalformedPayload. *)
Theorem coinbase_height_rule {W : WireLib} (firstSeen : Time) (raw ctr : list byte)
    (rest : list (list byte)) (blk : MsgBlock) (t : MsgTx) (txin : TxIn) :
  BtcDecode raw = Success blk ->
  In t (Transactions blk) -> IsCoinBaseTx t = true -> tx_TxIn t = [txin] ->
  ((exists h, fst (parseHeight txin) = Ok h)
   <-> (exists d0 d1, PushedData (SignatureScript txin) = Success [d0; d1]))
  /\ (forall d0 d1,
        PushedData (SignatureScript txin) = Success [d0; d1] ->
        fst (parseHeight txin)
        = Ok (le_value (firstn 4 (rightPad4 (slice_bytes (SignatureScript txin) d0))))
        /\ ((length (slice_bytes (SignatureScript txin) d0) <= 4)%nat ->
            firstn 4 (rightPad4 (slice_bytes (SignatureScript txin) d0))
            = rightPad4 (slice_bytes (SignatureScript txin) d0)
            /\ length (rightPad4 (slice_bytes (SignatureScript txin) d0)) = 4%nat
            /\ le_value (rightPad4 (slice_bytes (SignatureScript txin) d0))
               = le_value (slice_bytes (SignatureScript txin) d0)))
  /\ (~ (exists d0 d1, PushedData (SignatureScript txin) = Success [d0; d1]) ->
      MalformedPayload (parseBlock firstSeen (raw :: ctr :: rest))).
Proof.
  intros Hdec Hin Hcb Htx.
  split; [| split].
  - split.
    + intros (h & Hh).
      destruct (parseHeight_cases txin) as [(d0 & d1 & Hd & _) | (e & He & _)];
        [eauto | rewrite He in Hh; discriminate].
    + intros (d0 & d1 & Hd). rewrite (parseHeight_two txin d0 d1 Hd). cbn. eauto.
  - intros d0 d1 Hd. rewrite (parseHeight_two txin d0 d1 Hd). cbn [fst].
    split; [reflexivity |]. intros Hlen.
    assert (Hfour : length (rightPad4 (slice_bytes (SignatureScript txin) d0)) = 4%nat)
      by (unfold rightPad4; rewrite length_app, repeat_length; lia).
    repeat split.
    + rewrite <- Hfour at 1. apply firstn_all.
    + exact Hfour.
    + apply le_value_pad.
  - intros Hnot.
    destruct (parseHeight_cases txin) as [(d0 & d1 & Hd & _) | (e & He & _)].
    + exfalso. eauto.
    + exact (parseBlock_coinbase_error firstSeen raw ctr rest blk t txin e
               Hdec Hin Hcb Htx He).
Qed.

(** ** C2: the height 103 *)

(** C2, as the specification states it, does not hold.  The coinbase script
    [02 67 00] of [block103c_raw] pushes the height as exactly two bytes
    encoding 103, and nothing else; [parseBlock] rejects the block with
    "unexpected count 1". *)
Lemma two_byte_height_alone_is_rejected :
  ~ (forall (W : WireLib) (firstSeen : Time) (raw ctr : list byte)
            (blk : MsgBlock) (cb : MsgTx) (txin : TxIn)
            (d : slice) (more : list slice),
       BtcDecode raw = Success blk ->
       Transactions blk = [cb] -> IsCoinBaseTx cb = true -> tx_TxIn cb = [txin] ->
       PushedData (SignatureScript txin) = Success (d :: more) ->
       length (slice_bytes (SignatureScript txin) d) = 2%nat ->
       le_value (slice_bytes (SignatureScript txin) d) = 103 ->
       exists b, parseBlock firstSeen [raw; ctr] = Ok b /\ Height b = 103).
Proof.
  intros Hclaim.
  edestruct (Hclaim Btcd.lib 0 block103c_raw []) as (b & Hb & _).
  - vm_compute. reflexivity.
  - vm_compute. reflexivity.
  - vm_compute. reflexivity.
  - vm_compute. reflexivity.
  - vm_compute. reflexivity.
  - vm_compute. reflexivity.
  - vm_compute. reflexivity.
  - vm_compute in Hb. discriminate Hb.
Qed.

(** C2, amended.  When the decoded block has a coinbase transaction, and
    the script of each has exactly two pushed items of which the first, the
    height, is exactly two bytes encoding 103, [parseBlock] returns a block
    with [Height] 103.  And whenever the script of a coinbase transaction of
    the decoded block has a pushed-data count other than two, [parseBlock]
    fails with MalformedPayload. *)
Theorem height_103 {W : WireLib} (firstSeen : Time) (raw ctr : list byte)
    (rest : list (list byte)) (blk : MsgBlock) :
  BtcDecode raw = Success blk ->
  (existsb IsCoinBaseTx (Transactions blk) = true ->
   (forall t txin,
      In t (Transactions blk) -> IsCoinBaseTx t = true -> tx_TxIn t = [txin] ->
      exists d0 d1,
        PushedData (SignatureScript txin) = Success [d0; d1]
        /\ length (slice_bytes (SignatureScript txin) d0) = 2%nat
        /\ le_value (slice_bytes (SignatureScript txin) d0) = 103) ->
   exists b, parseBlock firstSeen (raw :: ctr :: rest) = Ok b /\ Height b = 103)
  /\ (forall t txin data,
        In t (Transactions blk) -> IsCoinBaseTx t = true -> tx_TxIn t = [txin] ->
        PushedData (SignatureScript txin) = Success data ->
        length data <> 2%nat ->
        MalformedPayload (parseBlock firstSeen (raw :: ctr :: rest))).
Proof.
  intros Hdec. split.
  - intros Hsome Hall.
    destruct (parseBlock_height firstSeen raw ctr rest blk 103 Hdec Hsome)
      as (b & Hb & Hh & _).
    + intros t txin Hin Hcb Htx.
      destruct (Hall t txin Hin Hcb Htx) as (d0 & d1 & Hd & Hlen & Hval).
      rewrite (parseHeight_two txin d0 d1 Hd). cbn [fst]. f_equal.
      unfold rightPad4. rewrite Hlen.
      rewrite firstn_all2 by (rewrite length_app, repeat_length; lia).
      rewrite le_value_pad. exact Hval.
    + eauto.
  - intros t txin data Hin Hcb Htx Hd Hn.
    apply (parseBlock_coinbase_error firstSeen raw ctr rest blk t txin
             (ErrUnexpectedCount (length data)) Hdec Hin Hcb Htx).
    rewrite (parseHeight_count txin data Hd Hn). reflexivity.
Qed.

Lemma coinbase_height_rule_witness :
  (exists h, fst (parseHeight txin103) = Ok h)
  <-> (exists d0 d1, PushedData (SignatureScript txin103) = Success [d0; d1]).
Proof.
  refine (proj1 (@coinbase_height_rule Btcd.lib 0 block103_raw [] [] block103
                   coinbase103 txin103 _ _ _ _)).
  - vm_compute. reflexivity.
  - left. reflexivity.
  - reflexivity.
  - reflexivity.
Defined.

Lemma height_103_witness :
  exists b, parseBlock (W := Btcd.lib) 0 [block103b_raw; []] = Ok b /\ Height b = 103.
Proof.
  refine (proj1 (@height_103 Btcd.lib 0 block103b_raw [] [] _ _) _ _).
  - vm_compute. reflexivity.
  - reflexivity.
  - intros t txin Hin Hcb Htx.
    destruct Hin as [<- | []].
    injection Htx as <-.
    exists (SScript 1 2), (SScript 4 1). vm_compute. repeat split.
Defined.

(** ** C3: fee, identifier and weight of a decoded transaction *)

(** C3.  Let [T] be a valid raw transaction: the wire decoder, which cannot
    read a transaction from no bytes at all, accepts it as [tx]; let [F] be
    a fee field of eight bytes.  On the two-frame payload made of [T ++ F]
    and a sequence frame, [parseTransaction] succeeds.  The fee of the
    result is the unsigned 64-bit number [F] encodes in little-endian order,
    its identifier is the double hash the wire format assigns to [tx], and
    its weight is three times the stripped size plus the full size, a sum
    that is within the range of [int]. *)
Theorem parseTransaction_fee_txid_weight {W : WireLib} (firstSeen : Time)
    (T F seq : list byte) (tx : MsgTx) :
  (forall tx0, Deserialize [] <> Success tx0) ->
  Deserialize T = Success tx ->
  length F = 8%nat ->
  fits_int (3 * SerializeSizeStripped tx + SerializeSize tx) ->
  exists t,
    parseTransaction firstSeen [T ++ F; seq] = Ok t
    /\ Fee t = le_value F
    /\ 0 <= Fee t < 2 ^ 64
    /\ TxID t = NewHashFromArray (TxHash tx)
    /\ Weight t = 3 * SerializeSizeStripped tx + SerializeSize tx
    /\ FirstSeen t = firstSeen.
Proof.
  intros Hempty Hdec HF Hfits.
  assert (HT : T <> []) by (intros ->; exact (Hempty tx Hdec)).
  rewrite (parseTransaction_split firstSeen T F seq HT HF), Hdec.
  eexists. split; [reflexivity |]. cbn [Fee TxID Weight FirstSeen].
  repeat split.
  - apply le_value_range.
  - pose proof (le_value_range F) as Hr. rewrite HF in Hr.
    change (256 ^ Z.of_nat 8) with (2 ^ 64) in Hr. lia.
  - replace (SerializeSizeStripped tx * 3) with (3 * SerializeSizeStripped tx) by lia.
    apply wrap_int_fits. exact Hfits.
Qed.

Lemma parseTransaction_fee_txid_weight_witness :
  exists t,
    parseTransaction (W := Btcd.lib) 7 [coinbase103_raw ++ hex "e803000000000000"; hex "0100"]
    = Ok t
    /\ Fee t = le_value (hex "e803000000000000")
    /\ 0 <= Fee t < 2 ^ 64
    /\ TxID t = @NewHashFromArray Btcd.lib (@TxHash Btcd.lib coinbase103)
    /\ Weight t = 3 * @SerializeSizeStripped Btcd.lib coinbase103
                 + @SerializeSize Btcd.lib coinbase103
    /\ FirstSeen t = 7.
Proof.
  refine (@parseTransaction_fee_txid_weight Btcd.lib 7 coinbase103_raw
            (hex "e803000000000000") (hex "0100") coinbase103 _ _ _ _).
  - intros tx0 H. vm_compute in H. discriminate H.
  - vm_compute. reflexivity.
  - reflexivity.
  - vm_compute. split; discriminate.
Defined.

(** ** C4: the payloads [parseTransaction] rejects *)

(** C4.  [parseTransaction] fails with MalformedPayload whenever the
    payload's frame count is not two, and whenever its first frame is at
    most eight bytes long. *)
Theorem parseTransaction_malformed {W : WireLib} (firstSeen : Time)
    (payload : list (list byte)) :
  length payload <> 2%nat
  \/ (exists blob, nth_error payload 0 = Some blob /\ (length blob <= 8)%nat) ->
  MalformedPayload (parseTransaction firstSeen payload).
Proof.
  intros Hbad.
  destruct (Nat.eq_dec (length payload) 2) as [Htwo | Hn].
  - destruct payload as [| blob [| seq [| ? ?]]]; try discriminate Htwo.
    destruct Hbad as [Hn | (blob' & Hnth & Hlen)]; [contradiction |].
    cbn in Hnth. injection Hnth as <-.
    exists ErrRawtxwithfeeLength. apply parseTransaction_short_blob. exact Hlen.
  - exists (ErrPayloadLength (length payload)).
    apply parseTransaction_frame_count. exact Hn.
Qed.

Lemma parseTransaction_malformed_witness :
  MalformedPayload (parseTransaction (W := Btcd.lib) 0 [hex "e803000000000000"; hex "0100"])
  /\ MalformedPayload (parseTransaction (W := Btcd.lib) 0 [coinbase103_raw]).
Proof.
  split.
  - apply (@parseTransaction_malformed Btcd.lib 0 [hex "e803000000000000"; hex "0100"]).
    right. exists (hex "e803000000000000"). split; [reflexivity | vm_compute; lia].
  - apply (@parseTransaction_malformed Btcd.lib 0 [coinbase103_raw]).
    left. simpl. lia.
Defined.

(** ** C5: every accepted block has a height *)

(** C5 at the payload without frames: [parseBlock] neither returns an error
    nor a block, it panics on [msg[0]]; so does the payload with the block
    frame alone on [msg[1]], even though the block in it decodes. *)
Theorem parseBlock_without_frames {W : WireLib} (firstSeen : Time) :
  parseBlock firstSeen [] = Panic IndexOutOfRange
  /\ ~ MalformedPayload (parseBlock firstSeen [])
  /\ value (parseBlock firstSeen []) = None
  /\ forall raw, parseBlock firstSeen [raw] = Panic IndexOutOfRange.
Proof.
  repeat split.
  intros (e & He). discriminate He.
Qed.

(** ** C6: the identifiers of the block's transactions *)

(** C6 at [block103_raw], a block of two transactions as the regtest miner
    builds it: [TxIDs] has two elements, the second is the identifier of the
    second transaction, and the first is not the identifier of the coinbase
    transaction.  It is the double hash of the coinbase transaction with the
    script [01 67 00 00]: the padding loop of [parseHeight] has overwritten
    the two bytes that follow the height in the script, [01 01]. *)
Theorem coinbase_txid_of_block103 :
  decoded (@BtcDecode Btcd.lib block103_raw) = Some block103
  /\ map (fun t => @NewHashFromArray Btcd.lib (@TxHash Btcd.lib t)) (Transactions block103)
     = [hex "2353d95ff20b55f201673425e275c471981c7720d72656c240f0483d6a965b40";
        hex "a32b5c977f3d7e37655723eb4dc2711cb0bbb027825b2c99a25eca4ad500c7ed"]
  /\ option_map TxIDs (value (parseBlock (W := Btcd.lib) 0 [block103_raw; []]))
     = Some [hex "47e00a95123a7f6d706106f85762cb1e8ec59ca21889d4af373e8f05e8d86560";
             hex "a32b5c977f3d7e37655723eb4dc2711cb0bbb027825b2c99a25eca4ad500c7ed"]
  /\ snd (parseHeight txin103) = [x01; x67; x00; x00]
  /\ @NewHashFromArray Btcd.lib (@TxHash Btcd.lib (withScript coinbase103 [x01; x67; x00; x00]))
     = hex "47e00a95123a7f6d706106f85762cb1e8ec59ca21889d4af373e8f05e8d86560".
Proof.
  repeat split; vm_compute; reflexivity.
Qed.

(** ** C7: an existing store at another version *)

(** C7.  When the file at the path is a database whose stored version is
    not 5, [NewStorage] fails with MigrationError, "cannot migrate from
    version v": [migrate] succeeds from no other version.  The file is
    afterwards what it was. *)
Theorem NewStorage_other_version (f : Storage.file) (v : Z) :
  Storage.selectVersion f = Success v ->
  v <> 5 ->
  fst (Storage.NewStorage (Storage.Present f))
  = Err (Storage.ErrMigrate (Storage.ErrCannotMigrate v))
  /\ Storage.MigrationError (fst (Storage.NewStorage (Storage.Present f)))
  /\ Storage.migrate v <> Ok tt
  /\ snd (Storage.NewStorage (Storage.Present f)) = Storage.Present f.
Proof.
  intros Hsel Hv.
  assert (Hmig : Storage.migrate v = Err (Storage.ErrCannotMigrate v)).
  { unfold Storage.migrate, Storage.currentVersion.
    destruct (v =? 5) eqn:E; [apply Z.eqb_eq in E; contradiction | reflexivity]. }
  assert (Hnew : Storage.NewStorage (Storage.Present f)
                 = (Err (Storage.ErrMigrate (Storage.ErrCannotMigrate v)),
                    Storage.Present f)).
  { unfold Storage.NewStorage, Storage.getVersion.
    cbn [Storage.sql_Open String.eqb]. rewrite Hsel, Hmig. reflexivity. }
  rewrite Hnew. cbn [fst snd]. repeat split.
  - eexists. reflexivity.
  - rewrite Hmig. discriminate.
Qed.

Lemma NewStorage_other_version_witness :
  let f := Storage.Sqlite {| Storage.config := Some [Some 4];
                             Storage.transaction := Some [];
                             Storage.block := Some [];
                             Storage.transaction_block := Some [] |} in
  fst (Storage.NewStorage (Storage.Present f))
  = Err (Storage.ErrMigrate (Storage.ErrCannotMigrate 4))
  /\ Storage.MigrationError (fst (Storage.NewStorage (Storage.Present f)))
  /\ Storage.migrate 4 <> Ok tt
  /\ snd (Storage.NewStorage (Storage.Present f)) = Storage.Present f.
Proof.
  intros f. apply (NewStorage_other_version f 4).
  - reflexivity.
  - lia.
Defined.

(** ** C8: the receive loop of [Run] *)

Lemma waitedFrom_snoc (env : nat -> Subscriber.round) (n : nat) :
  forall i, waitedFrom env i (S n) = waitedFrom env i n + Subscriber.waited (env (i + n)%nat).
Proof.
  induction n as [| n IH]; intros i.
  - cbn [waitedFrom]. rewrite Nat.add_0_r. lia.
  - change (waitedFrom env i (S (S n)))
      with (Subscriber.waited (env i) + waitedFrom env (S i) (S n)).
    rewrite IH. cbn [waitedFrom].
    replace (S i + n)%nat with (i + S n)%nat by lia. lia.
Qed.

(** Rounds after which the loop goes on only add up the waits and start the
    tasks. *)
Lemma runLoop_skip (env : nat -> Subscriber.round) (n : nat) :
  forall fuel i spent started,
    (forall j, (i <= j < i + n)%nat -> goes_on (env j) = true) ->
    Subscriber.runLoop (n + fuel) env i spent started
    = Subscriber.runLoop fuel env (i + n) (spent + waitedFrom env i n)
        (started ++ messagesFrom env i n).
Proof.
  induction n as [| n IH]; intros fuel i spent started Hgo.
  - cbn [Nat.add waitedFrom messagesFrom].
    rewrite Nat.add_0_r, Z.add_0_r, app_nil_r. reflexivity.
  - pose proof (Hgo i ltac:(lia)) as Hi. unfold goes_on in Hi.
    apply andb_prop in Hi. destruct Hi as (Hi & Hrecv).
    apply andb_prop in Hi. destruct Hi as (Hcancel & Hpending).
    apply negb_true_iff in Hcancel.
    cbn [Nat.add Subscriber.runLoop waitedFrom messagesFrom].
    rewrite Hcancel.
    destruct (Subscriber.parseError (env i)); [discriminate Hpending |].
    assert (Hrest : forall j, (S i <= j < S i + n)%nat -> goes_on (env j) = true)
      by (intros j Hj; apply Hgo; lia).
    replace (i + S n)%nat with (S i + n)%nat by lia.
    destruct (Subscriber.recv (env i)) as [| | e | [| topic payload]];
      try discriminate Hrecv;
      rewrite (IH fuel (S i) _ _ Hrest), ?Z.add_assoc, <- ?app_assoc; reflexivity.
Qed.

(** While every round lets the loop go on, no amount of rounds ends it. *)
Lemma runLoop_goes_on (env : nat -> Subscriber.round) :
  (forall i, goes_on (env i) = true) ->
  forall fuel i spent started, Subscriber.runLoop fuel env i spent started = None.
Proof.
  intros Hgo fuel.
  induction fuel as [| fuel IH]; intros i spent started; [reflexivity |].
  pose proof (Hgo i) as Hi. unfold goes_on in Hi.
  apply andb_prop in Hi. destruct Hi as (Hi & Hrecv).
  apply andb_prop in Hi. destruct Hi as (Hcancel & Hpending).
  apply negb_true_iff in Hcancel.
  cbn [Subscriber.runLoop]. rewrite Hcancel.
  destruct (Subscriber.parseError (env i)); [discriminate Hpending |].
  destruct (Subscriber.recv (env i)) as [| | e | [| topic payload]];
    try discriminate Hrecv; apply IH.
Qed.

(** C8, as the specification states it, does not hold.  It lets [Run] run
    the receive loop until [Stop] is invoked or a decode or delivery error
    occurs: a run that returns has then seen the stop flag set or found the
    error of a task.  When the first receive fails with an error other
    than a timeout or an interrupt (the context was terminated, say),
    [Run] returns "could not receive ZMQ message", although [Stop] was not
    invoked and no task has failed. *)
Lemma receive_error_ends_Run :
  ~ (forall (fuel : nat) (env : nat -> Subscriber.round) (r : Subscriber.ended),
       Subscriber.Run fuel None env = Some r ->
       Subscriber.cancel (env (Subscriber.rounds r)) = true
       \/ exists e, Subscriber.parseError (env (Subscriber.rounds r)) = Some e).
Proof.
  intros Hclaim.
  destruct (Hclaim 1%nat
              (fun _ => {| Subscriber.cancel := false;
                           Subscriber.parseError := None;
                           Subscriber.recv := Subscriber.RecvError "Context was terminated"%string;
                           Subscriber.waited := 0 |})
              _ eq_refl) as [Hstop | (e & Herr)].
  - discriminate Hstop.
  - discriminate Herr.
Qed.

(** C8, amended.  [Run] keeps running the receive loop for as long as the
    stop flag is not set, no task has an error to send and the receives
    time out, are interrupted or bring messages: a run in which that goes
    on for ever does not return.  It returns in the first round [k] in
    which one of these fails, having started one task for each message
    received before.  If the round finds the stop flag set, [Run] returns
    nil, and when the flag was set during the receive of the round before
    and the socket kept to the receive timeout, that is within one
    receive-wait interval: in particular when no message is in flight and
    that receive times out.  Otherwise it returns the first error it
    meets: the error a task has to send, and failing that the error of the
    receive, "could not receive ZMQ message".  (All this once the receive
    timeout is set: if that fails, [Run] returns its error before the first
    round.) *)
Theorem Run_returns (env : nat -> Subscriber.round) :
  ((forall i, goes_on (env i) = true) ->
   forall fuel, Subscriber.Run fuel None env = None)
  /\ (forall e fuel,
        exists r, Subscriber.Run fuel (Some e) env = Some r
                  /\ Subscriber.result r = Err (Subscriber.ErrSetRcvtimeo e)
                  /\ Subscriber.tasks r = [])
  /\ forall (k fuel : nat),
       (forall i, (i < k)%nat -> goes_on (env i) = true) ->
       goes_on (env k) = false ->
       (k < fuel)%nat ->
       exists r,
         Subscriber.Run fuel None env = Some r
         /\ Subscriber.rounds r = k
         /\ Subscriber.tasks r = messagesFrom env 0 k
         /\ (Subscriber.cancel (env k) = true ->
             Subscriber.result r = Ok tt
             /\ Subscriber.elapsed r = waitedFrom env 0 k
             /\ forall j, k = S j ->
                  0 <= Subscriber.waited (env j) <= Subscriber.RcvTimeo ->
                  Subscriber.elapsed r - waitedFrom env 0 j <= Subscriber.RcvTimeo)
         /\ (Subscriber.cancel (env k) = false ->
             forall e, Subscriber.parseError (env k) = Some e ->
                       Subscriber.result r = Err (Subscriber.ErrTask e))
         /\ (Subscriber.cancel (env k) = false ->
             Subscriber.parseError (env k) = None ->
             forall e, Subscriber.recv (env k) = Subscriber.RecvError e ->
                       Subscriber.result r = Err (Subscriber.ErrReceive e)).
Proof.
  split; [| split].
  - intros Hgo fuel. apply (runLoop_goes_on env Hgo).
  - intros e fuel. eexists. split; [reflexivity |]. split; reflexivity.
  - intros k fuel Hbefore Hend Hfuel. unfold Subscriber.Run.
    replace fuel with (k + S (fuel - S k))%nat by lia.
    rewrite (runLoop_skip env k (S (fuel - S k)) 0%nat 0 [])
      by (intros j Hj; apply Hbefore; lia).
    cbn [Nat.add app Subscriber.runLoop]. rewrite Z.add_0_l.
    destruct (Subscriber.cancel (env k)) eqn:Hcancel.
    + eexists. split; [reflexivity |].
      cbn [Subscriber.rounds Subscriber.tasks Subscriber.result Subscriber.elapsed].
      split; [reflexivity |]. split; [reflexivity |].
      split; [| split; discriminate].
      intros _. split; [reflexivity |]. split; [reflexivity |].
      intros j -> Hw. rewrite waitedFrom_snoc. cbn [Nat.add]. lia.
    + destruct (Subscriber.parseError (env k)) as [e |] eqn:Hpending.
      * eexists. split; [reflexivity |].
        cbn [Subscriber.rounds Subscriber.tasks Subscriber.result Subscriber.elapsed].
        split; [reflexivity |]. split; [reflexivity |].
        split; [discriminate |]. split; [| discriminate].
        intros _ e' [= <-]. reflexivity.
      * destruct (Subscriber.recv (env k)) as [| | e | [| topic payload]] eqn:Hrecv;
          try (exfalso; unfold goes_on in Hend;
               rewrite Hcancel, Hpending, Hrecv in Hend; discriminate Hend);
          (eexists; split; [reflexivity |];
           cbn [Subscriber.rounds Subscriber.tasks Subscriber.result Subscriber.elapsed];
           split; [reflexivity |]; split; [reflexivity |];
           split; [discriminate |]; split; [intros _ e' He'; discriminate He' |];
           intros _ _ e' He'; inversion He'; subst; reflexivity).
Qed.

(** The flag is set while the third receive waits for a message that does
    not come: [Run] returns nil in the round after, one second later. *)
Lemma Run_returns_witness :
  exists r,
    Subscriber.Run 5 None
      (fun i => {| Subscriber.cancel := (2 <? i)%nat;
                   Subscriber.parseError := None;
                   Subscriber.recv := Subscriber.EAGAIN;
                   Subscriber.waited := Subscriber.RcvTimeo |}) = Some r
    /\ Subscriber.rounds r = 3%nat
    /\ Subscriber.result r = Ok tt
    /\ Subscriber.elapsed r - 2 * Subscriber.RcvTimeo <= Subscriber.RcvTimeo.
Proof.
  destruct (proj2 (proj2 (Run_returns
                     (fun i => {| Subscriber.cancel := (2 <? i)%nat;
                                  Subscriber.parseError := None;
                                  Subscriber.recv := Subscriber.EAGAIN;
                                  Subscriber.waited := Subscriber.RcvTimeo |})))
              3%nat 5%nat)
    as (r & Hrun & Hrounds & _ & Hstop & _).
  - intros i Hi.
    destruct i as [| [| [| i]]]; [reflexivity | reflexivity | reflexivity | lia].
  - reflexivity.
  - lia.
  - exists r. split; [exact Hrun |]. split; [exact Hrounds |].
    destruct (Hstop eq_refl) as (Hnil & _ & Hlat).
    split; [exact Hnil |].
    apply (Hlat 2%nat eq_refl). cbn. unfold Subscriber.RcvTimeo. lia.
Defined.

(** ** C9: no frame count check in [parseBlock] *)

(** C9.  On a payload of fewer than two frames [parseBlock] panics with an
    index out of range, where [parseTransaction] returns its frame count
    error. *)
Theorem parseBlock_has_no_frame_check {W : WireLib} (firstSeen : Time)
    (payload : list (list byte)) :
  (length payload < 2)%nat ->
  parseBlock firstSeen payload = Panic IndexOutOfRange
  /\ ~ MalformedPayload (parseBlock firstSeen payload)
  /\ parseTransaction firstSeen payload = Err (ErrPayloadLength (length payload)).
Proof.
  intros Hlen. rewrite (parseBlock_short firstSeen payload Hlen).
  repeat split.
  - intros (e & He). discriminate He.
  - apply parseTransaction_frame_count. lia.
Qed.

Lemma parseBlock_has_no_frame_check_witness :
  parseBlock (W := Btcd.lib) 0 [block103_raw] = Panic IndexOutOfRange
  /\ ~ MalformedPayload (parseBlock (W := Btcd.lib) 0 [block103_raw])
  /\ parseTransaction (W := Btcd.lib) 0 [block103_raw] = Err (ErrPayloadLength 1).
Proof.
  apply (@parseBlock_has_no_frame_check Btcd.lib 0 [block103_raw]).
  simpl. lia.
Defined.

(** ** C10: an existing file without a readable version *)

(** C10.  When a file exists at the path and the version cannot be read
    from it, [NewStorage] returns no error value: [getVersion] panics with
    the error of the lookup.  Neither StorageInitError nor MigrationError
    is the outcome. *)
Theorem NewStorage_unreadable_version (f : Storage.file) (e : lib_error) :
  Storage.selectVersion f = Failure e ->
  fst (Storage.NewStorage (Storage.Present f)) = Panic (PanicError e)
  /\ (forall err, fst (Storage.NewStorage (Storage.Present f)) <> Err err)
  /\ ~ Storage.StorageInitError (fst (Storage.NewStorage (Storage.Present f)))
  /\ ~ Storage.MigrationError (fst (Storage.NewStorage (Storage.Present f))).
Proof.
  intros Hsel.
  assert (Hnew : fst (Storage.NewStorage (Storage.Present f)) = Panic (PanicError e)).
  { unfold Storage.NewStorage, Storage.getVersion.
    cbn [Storage.sql_Open String.eqb]. rewrite Hsel. reflexivity. }
  rewrite Hnew. repeat split.
  - intros err H. discriminate H.
  - intros (err & H). discriminate H.
  - intros (err & H). discriminate H.
Qed.

Lemma NewStorage_unreadable_version_witness :
  let f := Storage.NotADatabase (hex "68656c6c6f0a") in
  fst (Storage.NewStorage (Storage.Present f)) = Panic (PanicError Storage.notADatabase)
  /\ (forall err, fst (Storage.NewStorage (Storage.Present f)) <> Err err)
  /\ ~ Storage.StorageInitError (fst (Storage.NewStorage (Storage.Present f)))
  /\ ~ Storage.MigrationError (fst (Storage.NewStorage (Storage.Present f))).
Proof.
  intros f. apply (NewStorage_unreadable_version f Storage.notADatabase).
  reflexivity.
Defined.

(** * Further properties of the code *)

(** ** storage: [NewStorage] and [initialize] *)

(** [NewStorage] returns a storage in two situations only. *)
Lemma NewStorage_ok_cases (st : Storage.path_state) :
  fst (Storage.NewStorage st) = Ok tt ->
  st = Storage.Absent
  \/ exists f, st = Storage.Present f /\ Storage.selectVersion f = Success 5.
Proof.
  destruct st as [| e | f | e]; [auto | discriminate | | discriminate].
  unfold Storage.NewStorage, Storage.getVersion, Storage.migrate,
    Storage.currentVersion.
  cbn [Storage.sql_Open String.eqb].
  destruct (Storage.selectVersion f) as [v | e] eqn:Hsel; cbn [fst];
    [| discriminate].
  destruct (v =? 5) eqn:Hv; cbn [fst]; [| discriminate].
  apply Z.eqb_eq in Hv. subst v. eauto.
Qed.


(** X3.  A store that has been opened can be opened again: after a
    successful [NewStorage], whether it created the database or found it,
    the path holds a database at version 5, and a second [NewStorage]
    succeeds and changes nothing. *)
Theorem NewStorage_reopen (st : Storage.path_state) :
  fst (Storage.NewStorage st) = Ok tt ->
  Storage.NewStorage (snd (Storage.NewStorage st))
  = (Ok tt, snd (Storage.NewStorage st))
  /\ exists f, snd (Storage.NewStorage st) = Storage.Present f
               /\ Storage.getVersion f = Ok 5.
Proof.
  intros Hok. apply NewStorage_ok_cases in Hok.
  destruct Hok as [-> | (f & -> & Hsel)].
  - split; [reflexivity |]. eexists. split; reflexivity.
  - rewrite (NewStorage_current f Hsel). cbn [snd].
    rewrite (NewStorage_current f Hsel).
    split; [reflexivity |]. exists f. split; [reflexivity |].
    unfold Storage.getVersion. rewrite Hsel. reflexivity.
Qed.

Lemma NewStorage_reopen_witness :
  Storage.NewStorage (snd (Storage.NewStorage Storage.Absent))
  = (Ok tt, snd (Storage.NewStorage Storage.Absent))
  /\ exists f, snd (Storage.NewStorage Storage.Absent) = Storage.Present f
               /\ Storage.getVersion f = Ok 5.
Proof.
  apply (NewStorage_reopen Storage.Absent). reflexivity.
Defined.

(** X4.  [initialize] succeeds exactly on a database that has none of the
    four tables of the schema: on a file that is no database, and as soon
    as one of [config], [transaction], [block], [transaction_block] exists,
    it returns an error. *)
Theorem initialize_succeeds_iff (version : Z) (f : Storage.file) :
  fst (Storage.initialize version f) = Ok tt
  <-> exists db, f = Storage.Sqlite db
                 /\ Storage.config db = None /\ Storage.transaction db = None
                 /\ Storage.block db = None /\ Storage.transaction_block db = None.
Proof.
  destruct f as [content | db | e].
  - split; [discriminate | intros (db & H & _); discriminate H].
  - destruct db as [[c |] [t |] [b |] [tb |]];
      (split;
       [ intros H; try discriminate H; eexists; repeat split
       | intros (db' & H & Hc & Ht & Hb & Htb); injection H as <-;
         cbn in Hc, Ht, Hb, Htb; try discriminate; reflexivity ]).
  - split; [discriminate | intros (db & H & _); discriminate H].
Qed.

(** X5.  What a successful [initialize] leaves behind: the version that
    was passed is the one [getVersion] reads, [TxCount] is 0, and a second
    [initialize] fails on its first statement, the creation of the [config]
    table, without changing the file. *)
Theorem initialize_then_read (version version' : Z) (f : Storage.file) :
  fst (Storage.initialize version f) = Ok tt ->
  Storage.getVersion (snd (Storage.initialize version f)) = Ok version
  /\ Storage.TxCount (snd (Storage.initialize version f)) = Ok 0
  /\ exists e,
       Storage.initialize version' (snd (Storage.initialize version f))
       = (Err (Storage.ErrCreateConfig e), snd (Storage.initialize version f)).
Proof.
  intros Hok. apply initialize_succeeds_iff in Hok.
  destruct Hok as (db & -> & Hc & Ht & Hb & Htb).
  destruct db as [c t b tb]. cbn in Hc, Ht, Hb, Htb. subst.
  split; [reflexivity |]. split; [reflexivity |].
  eexists. reflexivity.
Qed.

Lemma initialize_then_read_witness :
  Storage.getVersion (snd (Storage.initialize 7 (Storage.Sqlite Storage.emptyDatabase)))
  = Ok 7
  /\ Storage.TxCount (snd (Storage.initialize 7 (Storage.Sqlite Storage.emptyDatabase)))
     = Ok 0
  /\ exists e,
       Storage.initialize 5 (snd (Storage.initialize 7 (Storage.Sqlite Storage.emptyDatabase)))
       = (Err (Storage.ErrCreateConfig e),
          snd (Storage.initialize 7 (Storage.Sqlite Storage.emptyDatabase))).
Proof.
  apply (initialize_then_read 7 5 (Storage.Sqlite Storage.emptyDatabase)).
  reflexivity.
Defined.

(** X6.  [initialize] is not atomic.  When it fails on a database that had
    no [config] table, the statements before the failing one have taken
    effect: the file has changed, and it now carries the version row. *)
Theorem initialize_not_atomic (version : Z) (db : Storage.Database)
    (e : Storage.initialize_error) :
  Storage.config db = None ->
  fst (Storage.initialize version (Storage.Sqlite db)) = Err e ->
  snd (Storage.initialize version (Storage.Sqlite db)) <> Storage.Sqlite db
  /\ Storage.selectVersion (snd (Storage.initialize version (Storage.Sqlite db)))
     = Success version.
Proof.
  intros Hc Herr.
  destruct db as [c [t |] [b |] [tb |]]; cbn in Hc; subst c;
    cbn in Herr |- *; try discriminate Herr; split; (discriminate || reflexivity).
Qed.

Lemma initialize_not_atomic_witness :
  let db := {| Storage.config := None; Storage.transaction := None;
               Storage.block := Some []; Storage.transaction_block := None |} in
  snd (Storage.initialize 5 (Storage.Sqlite db)) <> Storage.Sqlite db
  /\ Storage.selectVersion (snd (Storage.initialize 5 (Storage.Sqlite db))) = Success 5.
Proof.
  intros db.
  apply (initialize_not_atomic 5 db (Storage.ErrCreateBlock Storage.tableExists)).
  - reflexivity.
  - reflexivity.
Defined.

(** ** zmqsubscriber: [parseTransaction] *)

(** X7.  [parseTransaction] does not panic, whatever the payload and
    whatever the decoder answers: the two indexings of the payload and the
    read of the eight fee bytes are covered by its two length checks. *)
Theorem parseTransaction_never_panics {W : WireLib} (firstSeen : Time)
    (payload : list (list byte)) (p : panic) :
  parseTransaction firstSeen payload <> Panic p.
Proof.
  destruct (Nat.eq_dec (length payload) 2) as [Htwo | Hn].
  - destruct payload as [| blob [| seq [| ? ?]]]; try discriminate Htwo.
    destruct (Nat.le_gt_cases (length blob) 8) as [Hshort | Hlong].
    + rewrite (parseTransaction_short_blob firstSeen blob seq Hshort). discriminate.
    + rewrite <- (firstn_skipn (length blob - 8) blob).
      rewrite parseTransaction_split.
      * destruct (Deserialize (firstn (length blob - 8) blob)); discriminate.
      * intros Hnil. apply (f_equal (@length byte)) in Hnil.
        rewrite length_firstn in Hnil. cbn in Hnil. lia.
      * rewrite length_skipn. lia.
  - rewrite (parseTransaction_frame_count firstSeen payload Hn). discriminate.
Qed.

(** X8.  [parseTransaction] returns a transaction exactly when the payload
    has two frames, the first is longer than eight bytes, and the decoder
    accepts the first frame without its last eight bytes.  The fee is then
    the little-endian number in those last eight bytes, whatever they are;
    the second frame has no influence. *)
Theorem parseTransaction_succeeds_iff {W : WireLib} (firstSeen : Time)
    (payload : list (list byte)) (t : Transaction) :
  parseTransaction firstSeen payload = Ok t
  <-> exists blob seq tx,
        payload = [blob; seq]
        /\ (8 < length blob)%nat
        /\ Deserialize (firstn (length blob - 8) blob) = Success tx
        /\ t = {| TxID := NewHashFromArray (TxHash tx);
                  FirstSeen := firstSeen;
                  LastRemoved := None;
                  Fee := le_value (skipn (length blob - 8) blob);
                  Weight := wrap_int (SerializeSizeStripped tx * 3 + SerializeSize tx);
                  BlockHeight := 0;
                  IndexInBlock := 0 |}.
Proof.
  assert (Hlong : forall blob seq, (8 < length blob)%nat ->
            parseTransaction firstSeen [blob; seq]
            = match Deserialize (firstn (length blob - 8) blob) with
              | Failure e => Err (ErrDeserialize e)
              | Success tx =>
                  Ok {| TxID := NewHashFromArray (TxHash tx);
                        FirstSeen := firstSeen;
                        LastRemoved := None;
                        Fee := le_value (skipn (length blob - 8) blob);
                        Weight := wrap_int (SerializeSizeStripped tx * 3 + SerializeSize tx);
                        BlockHeight := 0;
                        IndexInBlock := 0 |}
              end).
  { intros blob seq Hlen.
    rewrite <- (firstn_skipn (length blob - 8) blob) at 1.
    apply parseTransaction_split.
    - intros Hnil. apply (f_equal (@length byte)) in Hnil.
      rewrite length_firstn in Hnil. cbn in Hnil. lia.
    - rewrite length_skipn. lia. }
  split.
  - intros Hok.
    destruct (Nat.eq_dec (length payload) 2) as [Htwo | Hn].
    + destruct payload as [| blob [| seq [| ? ?]]]; try discriminate Htwo.
      destruct (Nat.le_gt_cases (length blob) 8) as [Hshort | Hlen].
      * rewrite (parseTransaction_short_blob firstSeen blob seq Hshort) in Hok.
        discriminate Hok.
      * rewrite (Hlong blob seq Hlen) in Hok.
        destruct (Deserialize (firstn (length blob - 8) blob)) as [tx | e] eqn:Hdec;
          [| discriminate Hok].
        injection Hok as <-. exists blob, seq, tx. auto.
    + rewrite (parseTransaction_frame_count firstSeen payload Hn) in Hok.
      discriminate Hok.
  - intros (blob & seq & tx & -> & Hlen & Hdec & ->).
    rewrite (Hlong blob seq Hlen), Hdec. reflexivity.
Qed.

(** ** zmqsubscriber: [parseBlock] *)

Lemma withScript_same (t : MsgTx) (txin : TxIn) :
  tx_TxIn t = [txin] -> withScript t (SignatureScript txin) = t.
Proof.
  intros Htx. unfold withScript. rewrite Htx.
  destruct t as [v ins outs lt]. cbn in *. subst ins.
  destruct txin. reflexivity.
Qed.

(** The loop on a concatenation is the loop on the first part, continued
    on the second. *)
Lemma txLoop_app {W : WireLib} (txs1 txs2 : list MsgTx) :
  forall (h : Z) (acc : list Hash32),
    txLoop (txs1 ++ txs2) h acc
    = (r <- txLoop txs1 h acc ;; txLoop txs2 (fst r) (snd r)).
Proof.
  induction txs1 as [| t rest IH]; intros h acc; [reflexivity |].
  cbn [app txLoop].
  destruct (IsCoinBaseTx t).
  - destruct (nth_error (tx_TxIn t) 0) as [txin |]; [| reflexivity].
    destruct (parseHeight txin) as [[v | e | p] script']; try reflexivity.
    apply IH.
  - apply IH.
Qed.

(** X9.  With two frames or more, [parseBlock] does not panic, whatever
    the decoder answers and whatever the scripts of the block contain: the
    index out of range on a shorter payload is its only panic. *)
Theorem parseBlock_two_frames_never_panics {W : WireLib} (firstSeen : Time)
    (msg : list (list byte)) (p : panic) :
  (2 <= length msg)%nat -> parseBlock firstSeen msg <> Panic p.
Proof.
  intros Hlen. destruct msg as [| raw [| ctr rest]]; cbn in Hlen; try lia.
  unfold parseBlock. cbn [nth_error].
  destruct (BtcDecode raw) as [blk | e]; [| discriminate].
  pose proof (txLoop_no_panic (Transactions blk) (-1) []) as Hloop.
  destruct (txLoop (Transactions blk) (-1) []) as [[h ids] | e | p'];
    cbn [bind].
  - destruct (h <? 0); discriminate.
  - discriminate.
  - exfalso. exact (Hloop p' eq_refl).
Qed.

Lemma parseBlock_two_frames_never_panics_witness :
  parseBlock (W := Btcd.lib) 0 [genesis_raw; []] <> Panic IndexOutOfRange.
Proof.
  apply (@parseBlock_two_frames_never_panics Btcd.lib 0 [genesis_raw; []]).
  simpl. lia.
Defined.

(** X10.  Every block [parseBlock] returns has a height that [parseHeight]
    extracted from a coinbase transaction of the decoded block: a number in
    the unsigned 32-bit range, never the initial value -1 of the loop. *)
Theorem accepted_block_height {W : WireLib} (firstSeen : Time)
    (msg : list (list byte)) (b : Block) :
  parseBlock firstSeen msg = Ok b ->
  0 <= Height b < 2 ^ 32
  /\ exists raw ctr rest blk t txin,
       msg = raw :: ctr :: rest
       /\ BtcDecode raw = Success blk
       /\ In t (Transactions blk) /\ IsCoinBaseTx t = true /\ tx_TxIn t = [txin]
       /\ fst (parseHeight txin) = Ok (Height b).
Proof.
  intros Hok.
  destruct (parseBlock_accepted firstSeen msg b Hok)
    as (raw & ctr & rest & blk & Hmsg & Hdec & _ & Hr & t & txin & Hin & Hcb & Htx & Hv).
  split; [exact Hr |].
  exists raw, ctr, rest, blk, t, txin. repeat split; assumption.
Qed.

Lemma accepted_block_height_witness :
  exists b, parseBlock (W := Btcd.lib) 0 [block103_raw; []] = Ok b
            /\ 0 <= Height b < 2 ^ 32.
Proof.
  eexists. split; [vm_compute; reflexivity |].
  refine (proj1 (@accepted_block_height Btcd.lib 0 [block103_raw; []] _ _)).
  vm_compute. reflexivity.
Defined.

(** X11.  A block that decodes and has no coinbase transaction (no
    transaction with a single input that refers to the null outpoint) is
    rejected with "height not found"; so is the block without
    transactions. *)
Theorem block_without_coinbase {W : WireLib} (firstSeen : Time)
    (raw ctr : list byte) (rest : list (list byte)) (blk : MsgBlock) :
  BtcDecode raw = Success blk ->
  (forall t, In t (Transactions blk) -> IsCoinBaseTx t = false) ->
  parseBlock firstSeen (raw :: ctr :: rest) = Err ErrHeightNotFound.
Proof.
  intros Hdec Hnone.
  apply (parseBlock_no_coinbase firstSeen raw ctr rest blk Hdec).
  destruct (existsb IsCoinBaseTx (Transactions blk)) eqn:Hex; [| reflexivity].
  apply existsb_exists in Hex. destruct Hex as (t & Hin & Hcb).
  rewrite (Hnone t Hin) in Hcb. discriminate Hcb.
Qed.

Lemma block_without_coinbase_witness :
  parseBlock (W := Btcd.lib) 0 [spend_only_raw; []] = Err ErrHeightNotFound.
Proof.
  refine (@block_without_coinbase Btcd.lib 0 spend_only_raw [] [] _ _ _).
  - vm_compute. reflexivity.
  - intros t [<- | []]. reflexivity.
Defined.

Lemma parseTransaction_never_panics_witness :
  parseTransaction (W := Btcd.lib) 0 [coinbase103_raw; []] <> Panic IndexOutOfRange.
Proof.
  apply (@parseTransaction_never_panics Btcd.lib 0 [coinbase103_raw; []] IndexOutOfRange).
Defined.

(** X12.  When a block has several coinbase transactions, the height of
    the returned block is the one of the last of them: each coinbase
    transaction the loop meets overwrites the height. *)
Theorem last_coinbase_gives_height {W : WireLib} (firstSeen : Time)
    (raw ctr : list byte) (rest : list (list byte)) (blk : MsgBlock) (b : Block)
    (before after : list MsgTx) (t : MsgTx) (txin : TxIn) (h : Z) :
  BtcDecode raw = Success blk ->
  Transactions blk = before ++ t :: after ->
  IsCoinBaseTx t = true -> tx_TxIn t = [txin] ->
  fst (parseHeight txin) = Ok h ->
  (forall t', In t' after -> IsCoinBaseTx t' = false) ->
  parseBlock firstSeen (raw :: ctr :: rest) = Ok b ->
  Height b = h.
Proof.
  intros Hdec Htxs Hcb Htx Hh Hafter Hok.
  pose proof (parseHeight_range txin h Hh) as Hr.
  unfold parseBlock in Hok. cbn [nth_error] in Hok.
  rewrite Hdec, Htxs, txLoop_app in Hok.
  destruct (txLoop before (-1) []) as [[h0 ids0] | e | p]; cbn [bind fst snd] in Hok;
    try discriminate Hok.
  cbn [txLoop] in Hok. rewrite Hcb, Htx in Hok. cbn [nth_error] in Hok.
  destruct (parseHeight txin) as [r script']. cbn [fst] in Hh. subst r.
  destruct (txLoop after h (ids0 ++ [NewHashFromArray (TxHash (withScript t script'))]))
    as [[h1 ids1] | e | p] eqn:Hloop; cbn [bind] in Hok; try discriminate Hok.
  apply txLoop_ok in Hloop. destruct Hloop as (_ & Hh1).
  destruct Hh1 as [(-> & _) | (t' & txin' & Hin & Hcb' & _)].
  - destruct (h <? 0) eqn:Hneg; [discriminate Hok |].
    apply Z.ltb_ge in Hneg.
    injection Hok as <-. cbn [Height].
    unfold wrap_uint32. apply Z.mod_small. lia.
  - rewrite (Hafter t' Hin) in Hcb'. discriminate Hcb'.
Qed.

Lemma last_coinbase_gives_height_witness :
  exists b, parseBlock (W := Btcd.lib) 0 [two_coinbases_raw; []] = Ok b
            /\ Height b = 104.
Proof.
  eexists. split; [vm_compute; reflexivity |].
  refine (@last_coinbase_gives_height Btcd.lib 0 two_coinbases_raw [] [] _ _
            [coinbase103] [] _ _ 104 _ _ _ _ _ _ _).
  - vm_compute. reflexivity.
  - vm_compute. reflexivity.
  - reflexivity.
  - reflexivity.
  - vm_compute. reflexivity.
  - intros t' [].
  - vm_compute. reflexivity.
Defined.

(** ** zmqsubscriber: what [parseHeight] does to the script *)

Lemma zeroed_0 (script : list byte) (n : nat) : zeroed script n 0 = script.
Proof.
  unfold zeroed. cbn [repeat app]. rewrite Nat.add_0_r. apply firstn_skipn.
Qed.

Lemma zeroed_length (script : list byte) (n k : nat) :
  (n + k <= length script)%nat -> length (zeroed script n k) = length script.
Proof.
  intros H. unfold zeroed.
  rewrite !length_app, length_firstn, repeat_length, length_skipn. lia.
Qed.

Lemma zeroed_store (script : list byte) (n k : nat) :
  (n < length script)%nat ->
  zeroed (store script n x00) (S n) k = zeroed script n (S k).
Proof.
  intros Hn. unfold zeroed, store.
  assert (HA : length (firstn n script) = n) by (rewrite length_firstn; lia).
  replace (firstn n script ++ x00 :: skipn (S n) script)
    with ((firstn n script ++ [x00]) ++ skipn (S n) script)
    by (rewrite <- app_assoc; reflexivity).
  rewrite firstn_exact by (rewrite length_app; cbn; lia).
  replace (S n + k)%nat with (k + S n)%nat by lia.
  rewrite <- skipn_skipn.
  rewrite (skipn_exact (firstn n script ++ [x00]) (skipn (S n) script) (S n))
    by (rewrite length_app; cbn; lia).
  rewrite skipn_skipn.
  replace (n + S k)%nat with (k + S n)%nat by lia.
  rewrite <- app_assoc. reflexivity.
Qed.

Lemma padLoop_fresh (rounds : nat) (script : list byte) :
  forall bs, fst (padLoop rounds (script, SFresh bs)) = script.
Proof.
  induction rounds as [| k IH]; intros bs; [reflexivity |].
  cbn [padLoop snd slice_len]. destruct (length bs <? 4)%nat; [| reflexivity].
  cbn [append]. apply IH.
Qed.

Lemma padLoop_nil (rounds : nat) (script : list byte) :
  fst (padLoop rounds (script, SNil)) = script.
Proof.
  destruct rounds as [| k]; [reflexivity |].
  cbn [padLoop snd slice_len Nat.ltb Nat.leb append]. apply padLoop_fresh.
Qed.

(** The loop writes zeros behind the slice while the slice is shorter than
    four bytes and the script has room. *)
Lemma padLoop_script (rounds : nat) :
  forall (script : list byte) (off len : nat),
    (off + len <= length script)%nat ->
    (4 <= rounds + len)%nat ->
    fst (padLoop rounds (script, SScript off len))
    = zeroed script (off + len) (Nat.min (4 - len) (length script - (off + len))).
Proof.
  induction rounds as [| k IH]; intros script off len Hwf Hlen.
  - cbn [padLoop fst]. replace (4 - len)%nat with 0%nat by lia.
    cbn [Nat.min]. symmetry. apply zeroed_0.
  - cbn [padLoop snd slice_len]. destruct (len <? 4)%nat eqn:Hshort.
    + apply Nat.ltb_lt in Hshort. cbn [append].
      destruct (off + len <? length script)%nat eqn:Hroom.
      * apply Nat.ltb_lt in Hroom.
        assert (Hstore : length (store script (off + len) x00) = length script).
        { unfold store. rewrite length_app, length_firstn. cbn [length].
          rewrite length_skipn. lia. }
        rewrite IH by (rewrite ?Hstore; lia).
        rewrite Hstore.
        replace (off + S len)%nat with (S (off + len)) by lia.
        rewrite zeroed_store by assumption.
        f_equal. lia.
      * apply Nat.ltb_ge in Hroom.
        rewrite padLoop_fresh.
        replace (length script - (off + len))%nat with 0%nat by lia.
        rewrite Nat.min_0_r. symmetry. apply zeroed_0.
    + apply Nat.ltb_ge in Hshort. cbn [fst].
      replace (4 - len)%nat with 0%nat by lia.
      cbn [Nat.min]. symmetry. apply zeroed_0.
Qed.

(** X13.  The only thing [parseHeight] does to the script it reads: when
    the script has two pushed items and the first is a data push of fewer
    than four bytes, the bytes of the script that follow this item are set
    to zero, as many as the item lacks to four bytes, or as the script has
    left.  A script on which [parseHeight] returns an error, a first item
    that is [OP_0], or one of four bytes or more, stay as they are; the
    length of the script never changes. *)
Theorem parseHeight_script_effect (txin : TxIn) :
  length (snd (parseHeight txin)) = length (SignatureScript txin)
  /\ (forall e, fst (parseHeight txin) = Err e ->
                snd (parseHeight txin) = SignatureScript txin)
  /\ (forall d0 d1,
        PushedData (SignatureScript txin) = Success [d0; d1] ->
        snd (parseHeight txin)
        = match d0 with
          | SScript off len =>
              zeroed (SignatureScript txin) (off + len)
                (Nat.min (4 - len) (length (SignatureScript txin) - (off + len)))
          | _ => SignatureScript txin
          end).
Proof.
  assert (Htwo : forall d0 d1,
            PushedData (SignatureScript txin) = Success [d0; d1] ->
            snd (parseHeight txin)
            = match d0 with
              | SScript off len =>
                  zeroed (SignatureScript txin) (off + len)
                    (Nat.min (4 - len) (length (SignatureScript txin) - (off + len)))
              | _ => SignatureScript txin
              end).
  { intros d0 d1 Hd. rewrite (parseHeight_two txin d0 d1 Hd). cbn [snd].
    pose proof (PushedData_wf _ _ Hd) as Hwf.
    inversion Hwf as [| ? ? Hwf0 _]; subst.
    destruct d0 as [| off len | bs].
    - apply padLoop_nil.
    - cbn in Hwf0. apply padLoop_script; lia.
    - apply padLoop_fresh. }
  split; [| split].
  - destruct (parseHeight_cases txin) as [(d0 & d1 & Hd & _) | (e & _ & Hs & _)].
    + rewrite (parseHeight_two txin d0 d1 Hd). cbn [snd].
      pose proof (PushedData_wf _ _ Hd) as Hwf.
      inversion Hwf as [| ? ? Hwf0 _]; subst.
      apply (padLoop_spec 4 (SignatureScript txin) d0 Hwf0).
      lia.
    + rewrite Hs. reflexivity.
  - intros e He.
    destruct (parseHeight_cases txin) as [(d0 & d1 & _ & Hv) | (e' & _ & Hs & _)].
    + rewrite Hv in He. discriminate He.
    + exact Hs.
  - exact Htwo.
Qed.

Lemma parseHeight_script_effect_witness :
  snd (parseHeight txin103) = [x01; x67; x00; x00].
Proof.
  rewrite (proj2 (proj2 (parseHeight_script_effect txin103)) (SScript 1 1) (SScript 3 1)).
  - reflexivity.
  - reflexivity.
Defined.

(** ** zmqsubscriber: the identifiers and the other fields of a block *)

(** X14.  In every block [parseBlock] returns, [TxIDs] has one entry per
    transaction of the decoded block, in block order, and the entry of
    every transaction that is not a coinbase transaction is the identifier
    of that transaction. *)
Theorem TxIDs_of_other_transactions {W : WireLib} (firstSeen : Time)
    (raw ctr : list byte) (rest : list (list byte)) (blk : MsgBlock) (b : Block) :
  BtcDecode raw = Success blk ->
  parseBlock firstSeen (raw :: ctr :: rest) = Ok b ->
  length (TxIDs b) = length (Transactions blk)
  /\ forall i t,
       nth_error (Transactions blk) i = Some t ->
       IsCoinBaseTx t = false ->
       nth_error (TxIDs b) i = Some (NewHashFromArray (TxHash t)).
Proof.
  intros Hdec Hok.
  destruct (parseBlock_accepted firstSeen _ b Hok)
    as (raw' & ctr' & rest' & blk' & Hmsg & Hdec' & Hids & _).
  injection Hmsg as <- <- <-.
  rewrite Hdec in Hdec'. injection Hdec' as <-.
  rewrite Hids. split; [apply length_map |].
  intros i t Hnth Hcb.
  rewrite nth_error_map, Hnth. cbn [option_map].
  rewrite (txid_in_loop_other t Hcb). reflexivity.
Qed.

Lemma TxIDs_of_other_transactions_witness :
  exists b, parseBlock (W := Btcd.lib) 0 [block103_raw; []] = Ok b
            /\ length (TxIDs b) = 2%nat
            /\ nth_error (TxIDs b) 1 = Some (@NewHashFromArray Btcd.lib (@TxHash Btcd.lib spend103)).
Proof.
  eexists. split; [vm_compute; reflexivity |].
  destruct (@TxIDs_of_other_transactions Btcd.lib 0 block103_raw [] [] block103 _
              ltac:(vm_compute; reflexivity) ltac:(vm_compute; reflexivity))
    as (Hlen & Hnth).
  split; [exact Hlen |].
  apply (Hnth 1%nat spend103); reflexivity.
Defined.

(** X15.  When the first pushed item of every coinbase script of the block
    has four bytes or more, [parseHeight] finds nothing to pad: every entry
    of [TxIDs], the coinbase's too, is the identifier of the block's
    transaction at that position. *)
Theorem TxIDs_exact_with_long_height {W : WireLib} (firstSeen : Time)
    (raw ctr : list byte) (rest : list (list byte)) (blk : MsgBlock) (b : Block) :
  BtcDecode raw = Success blk ->
  (forall t txin d0 d1,
     In t (Transactions blk) -> IsCoinBaseTx t = true -> tx_TxIn t = [txin] ->
     PushedData (SignatureScript txin) = Success [d0; d1] ->
     (4 <= slice_len d0)%nat) ->
  parseBlock firstSeen (raw :: ctr :: rest) = Ok b ->
  TxIDs b = map (fun t => NewHashFromArray (TxHash t)) (Transactions blk).
Proof.
  intros Hdec Hlong Hok.
  destruct (parseBlock_accepted firstSeen _ b Hok)
    as (raw' & ctr' & rest' & blk' & Hmsg & Hdec' & Hids & _).
  injection Hmsg as <- <- <-.
  rewrite Hdec in Hdec'. injection Hdec' as <-.
  rewrite Hids. apply map_ext_in. intros t Hin.
  destruct (IsCoinBaseTx t) eqn:Hcb; [| apply (txid_in_loop_other t Hcb)].
  destruct (IsCoinBaseTx_input t Hcb) as (txin & Htx).
  rewrite (txid_in_loop_coinbase t txin Hcb Htx).
  assert (Hsame : snd (parseHeight txin) = SignatureScript txin).
  { destruct (parseHeight_cases txin) as [(d0 & d1 & Hd & _) | (e & _ & Hs & _)].
    - apply (parseHeight_keeps_script txin d0 d1 Hd).
      exact (Hlong t txin d0 d1 Hin Hcb Htx Hd).
    - exact Hs. }
  rewrite Hsame, (withScript_same t txin Htx). reflexivity.
Qed.

(** X16.  The other fields of a returned block: [IsBest] is true for every
    block; [FirstSeen] is the time that was passed in; the encoded time and
    the parent are those of the decoded header, and the hash is the hash of
    that header. *)
Theorem accepted_block_fields {W : WireLib} (firstSeen : Time)
    (raw ctr : list byte) (rest : list (list byte)) (blk : MsgBlock) (b : Block) :
  BtcDecode raw = Success blk ->
  parseBlock firstSeen (raw :: ctr :: rest) = Ok b ->
  IsBest b = true
  /\ blk_FirstSeen b = firstSeen
  /\ EncodedTime b = Timestamp (Header blk)
  /\ blk_Hash b = NewHashFromArray (BlockHash (Header blk))
  /\ Parent b = NewHashFromArray (PrevBlock (Header blk)).
Proof.
  intros Hdec Hok. unfold parseBlock in Hok. cbn [nth_error] in Hok.
  rewrite Hdec in Hok.
  destruct (txLoop (Transactions blk) (-1) []) as [[h ids] | e | p];
    cbn [bind] in Hok; try discriminate Hok.
  destruct (h <? 0); [discriminate Hok |].
  injection Hok as <-. repeat split.
Qed.

Lemma accepted_block_fields_witness :
  exists b, parseBlock (W := Btcd.lib) 42 [block103_raw; []] = Ok b
            /\ IsBest b = true /\ blk_FirstSeen b = 42
            /\ EncodedTime b = 1577836800.
Proof.
  eexists. split; [vm_compute; reflexivity |].
  destruct (@accepted_block_fields Btcd.lib 42 block103_raw [] [] block103 _
              ltac:(vm_compute; reflexivity) ltac:(vm_compute; reflexivity))
    as (H1 & H2 & H3 & _).
  repeat split; assumption.
Defined.

Lemma TxIDs_exact_with_long_height_witness :
  exists b blk,
    @BtcDecode Btcd.lib block104_raw = Success blk
    /\ parseBlock (W := Btcd.lib) 0 [block104_raw; []] = Ok b
    /\ TxIDs b = map (fun t => @NewHashFromArray Btcd.lib (@TxHash Btcd.lib t))
                     (Transactions blk).
Proof.
  eexists. eexists.
  split; [vm_compute; reflexivity |].
  split; [vm_compute; reflexivity |].
  apply (@TxIDs_exact_with_long_height Btcd.lib 0 block104_raw [] []).
  - vm_compute. reflexivity.
  - intros t txin d0 d1 Hin Hcb Htx Hd.
    destruct Hin as [<- | []]. injection Htx as <-.
    vm_compute in Hd. injection Hd as <- <-. cbn. lia.
  - vm_compute. reflexivity.
Defined.

(** ** zmqsubscriber: [processMessage] *)

(** X17.  The dispatch of [processMessage]: a transaction is handed to
    [IncomingTx] exactly when the topic is "rawtxwithfee" and
    [parseTransaction], given the time of receipt, returns it; a block is
    handed to [IncomingBlocks] exactly when the topic is "rawblock" and
    [parseBlock] returns it; and the error "unknown topic" is returned
    exactly for the other topics, without a look at the payload. *)
Theorem processMessage_dispatch {W : WireLib} (now : Time) (topic : string)
    (payload : list (list byte)) :
  (forall tx, processMessage now topic payload = Ok (ToIncomingTx tx)
              <-> topic = "rawtxwithfee"%string
                  /\ parseTransaction now payload = Ok tx)
  /\ (forall block, processMessage now topic payload = Ok (ToIncomingBlocks block)
                    <-> topic = "rawblock"%string
                        /\ parseBlock now payload = Ok block)
  /\ (processMessage now topic payload = Err (ErrUnknownTopic topic)
      <-> topic <> "rawtxwithfee"%string /\ topic <> "rawblock"%string).
Proof.
  unfold processMessage, topicRawTxWithFee, topicRawBlock.
  destruct (String.eqb topic "rawtxwithfee") eqn:Htx.
  - apply String.eqb_eq in Htx. subst topic.
    split; [| split].
    + intros tx. split.
      * destruct (parseTransaction now payload); intros H; inversion H; subst; auto.
      * intros (_ & ->). reflexivity.
    + intros block. split.
      * destruct (parseTransaction now payload); discriminate.
      * intros (H & _). discriminate H.
    + split.
      * destruct (parseTransaction now payload); discriminate.
      * intros (H & _). exfalso. apply H. reflexivity.
  - apply String.eqb_neq in Htx.
    destruct (String.eqb topic "rawblock") eqn:Hblk.
    + apply String.eqb_eq in Hblk. subst topic.
      split; [| split].
      * intros tx. split.
        -- destruct (parseBlock now payload); discriminate.
        -- intros (H & _). discriminate H.
      * intros block. split.
        -- destruct (parseBlock now payload); intros H; inversion H; subst; auto.
        -- intros (_ & ->). reflexivity.
      * split.
        -- destruct (parseBlock now payload); discriminate.
        -- intros (_ & H). exfalso. apply H. reflexivity.
    + apply String.eqb_neq in Hblk.
      split; [| split].
      * intros tx. split; [discriminate | intros (H & _); contradiction].
      * intros block. split; [discriminate | intros (H & _); contradiction].
      * split; auto.
Qed.

(** ** bitcoinrpcclient: [waitTillRPCServerReady] *)

Lemma firstAnswer_some (g : nat -> result Z) (count : nat) :
  forall from k,
    firstAnswer g from count = Some k ->
    (from <= k < from + count)%nat
    /\ (exists n, g k = Success n)
    /\ forall i, (from <= i < k)%nat -> exists e, g i = Failure e.
Proof.
  induction count as [| c IH]; intros from k H; cbn [firstAnswer] in H;
    [discriminate H |].
  destruct (g from) as [n | e] eqn:Hg.
  - injection H as <-.
    split; [lia | split; [eauto | intros i Hi; lia]].
  - apply IH in H. destruct H as (Hk & Hn & Hfail).
    split; [lia | split; [exact Hn |]].
    intros i Hi. destruct (Nat.eq_dec i from) as [-> | Hne]; [eauto |].
    apply Hfail. lia.
Qed.

Lemma firstAnswer_none (g : nat -> result Z) (count : nat) :
  forall from,
    firstAnswer g from count = None ->
    forall i, (from <= i < from + count)%nat -> exists e, g i = Failure e.
Proof.
  induction count as [| c IH]; intros from H i Hi; [lia |].
  cbn [firstAnswer] in H.
  destruct (g from) as [n | e] eqn:Hg; [discriminate H |].
  destruct (Nat.eq_dec i from) as [-> | Hne]; [eauto |].
  apply (IH (S from) H). lia.
Qed.

(** The loop goes on exactly while fewer than [rounds timeout] calls have
    failed. *)
Lemma rounds_spec (timeout : Z) (c : nat) :
  Z.of_nat c * RPCClient.checkInterval < timeout <-> (c < RPCClient.rounds timeout)%nat.
Proof.
  unfold RPCClient.rounds.
  change RPCClient.checkInterval with 100000000.
  pose proof (Z.div_mod (timeout + 100000000 - 1) 100000000 ltac:(lia)) as Hdm.
  pose proof (Z.mod_pos_bound (timeout + 100000000 - 1) 100000000 ltac:(lia)) as Hr.
  lia.
Qed.

Lemma waitLoop_run (g : nat -> result Z) (timeout : Z) (fuel : nat) :
  timeout <= max_int - RPCClient.checkInterval ->
  forall c,
    (c <= RPCClient.rounds timeout)%nat ->
    (RPCClient.rounds timeout - c < fuel)%nat ->
    RPCClient.waitLoop fuel g timeout (Z.of_nat c * RPCClient.checkInterval) c
      (Z.of_nat c * RPCClient.checkInterval)
    = Some match firstAnswer g c (RPCClient.rounds timeout - c) with
           | Some k =>
               {| RPCClient.returned := None;
                  RPCClient.calls := S k;
                  RPCClient.slept := Z.of_nat k * RPCClient.checkInterval |}
           | None =>
               {| RPCClient.returned := Some (RPCClient.ErrTimedOut timeout);
                  RPCClient.calls := RPCClient.rounds timeout;
                  RPCClient.slept :=
                    Z.of_nat (RPCClient.rounds timeout) * RPCClient.checkInterval |}
           end.
Proof.
  intros Hmax. induction fuel as [| fuel' IH]; intros c Hc Hfuel; [lia |].
  cbn [RPCClient.waitLoop].
  destruct (Z.of_nat c * RPCClient.checkInterval <? timeout) eqn:Hlt.
  - apply Z.ltb_lt in Hlt. pose proof Hlt as Hlt'. apply rounds_spec in Hlt'.
    destruct (RPCClient.rounds timeout - c)%nat as [| m] eqn:Hm; [lia |].
    cbn [firstAnswer].
    destruct (g c) as [n | e]; [reflexivity |].
    assert (Hnext : wrap_int (Z.of_nat c * RPCClient.checkInterval + RPCClient.checkInterval)
                    = Z.of_nat (S c) * RPCClient.checkInterval).
    { rewrite wrap_int_fits; [lia |].
      unfold fits_int, min_int, max_int in *.
      change RPCClient.checkInterval with 100000000 in *. lia. }
    rewrite Hnext.
    replace (Z.of_nat c * RPCClient.checkInterval + RPCClient.checkInterval)
      with (Z.of_nat (S c) * RPCClient.checkInterval) by lia.
    rewrite (IH (S c)) by lia.
    replace (RPCClient.rounds timeout - S c)%nat with m by lia.
    reflexivity.
  - apply Z.ltb_ge in Hlt.
    assert (Hnot : ~ (c < RPCClient.rounds timeout)%nat)
      by (intros H; apply rounds_spec in H; lia).
    replace (RPCClient.rounds timeout - c)%nat with 0%nat by lia.
    cbn [firstAnswer].
    replace (RPCClient.rounds timeout) with c by lia.
    reflexivity.
Qed.

(** X18.  [waitTillRPCServerReady] ends, and what it does is fixed by the
    first call the server answers: with [n] the least number of intervals
    that cover the timeout, it returns nil after that call if it is among
    the first [n], having slept one interval for each failed call before
    it; otherwise it makes exactly [n] calls, sleeps [n] intervals and
    returns the timeout error.  (The timeout must leave room for one
    interval below the largest duration, so that the waited time does not
    wrap around.) *)
Theorem waitTillRPCServerReady_outcome (g : nat -> result Z) (timeout : Z)
    (fuel : nat) :
  timeout <= max_int - RPCClient.checkInterval ->
  (RPCClient.rounds timeout < fuel)%nat ->
  RPCClient.waitTillRPCServerReady fuel g timeout
  = Some match firstAnswer g 0 (RPCClient.rounds timeout) with
         | Some k =>
             {| RPCClient.returned := None;
                RPCClient.calls := S k;
                RPCClient.slept := Z.of_nat k * RPCClient.checkInterval |}
         | None =>
             {| RPCClient.returned := Some (RPCClient.ErrTimedOut timeout);
                RPCClient.calls := RPCClient.rounds timeout;
                RPCClient.slept :=
                  Z.of_nat (RPCClient.rounds timeout) * RPCClient.checkInterval |}
         end.
Proof.
  intros Hmax Hfuel.
  pose proof (waitLoop_run g timeout fuel Hmax 0%nat ltac:(lia) ltac:(lia)) as Hrun.
  rewrite Nat.sub_0_r in Hrun. exact Hrun.
Qed.

Lemma waitTillRPCServerReady_outcome_witness :
  RPCClient.waitTillRPCServerReady 101
    (fun i => if (i <? 3)%nat then Failure "connection refused"%string else Success 7)
    (10 * RPCClient.Second)
  = Some {| RPCClient.returned := None;
            RPCClient.calls := 4;
            RPCClient.slept := 3 * RPCClient.checkInterval |}.
Proof.
  rewrite (waitTillRPCServerReady_outcome _ (10 * RPCClient.Second) 101).
  - reflexivity.
  - vm_compute. discriminate.
  - vm_compute. lia.
Defined.

(** X19.  The wait of [NewBitcoinRPCClient], ten seconds: whatever the
    server answers, [GetBlockCount] is called at most 100 times and the
    sleeps add up to at most ten seconds; nil is returned exactly when one
    of the first 100 calls is answered, and the timeout error, after 100
    calls and ten seconds of sleep, exactly when none is. *)
Theorem wait_of_ten_seconds (g : nat -> result Z) :
  exists r,
    RPCClient.waitTillRPCServerReady 101 g (10 * RPCClient.Second) = Some r
    /\ (RPCClient.calls r <= 100)%nat
    /\ RPCClient.slept r <= 10 * RPCClient.Second
    /\ (RPCClient.returned r = None
        <-> exists k n, (k < 100)%nat /\ g k = Success n)
    /\ (RPCClient.returned r <> None ->
        RPCClient.calls r = 100%nat /\ RPCClient.slept r = 10 * RPCClient.Second).
Proof.
  assert (Hrounds : RPCClient.rounds (10 * RPCClient.Second) = 100%nat) by reflexivity.
  rewrite (waitTillRPCServerReady_outcome g (10 * RPCClient.Second) 101)
    by (rewrite ?Hrounds; vm_compute; (discriminate || lia)).
  rewrite Hrounds.
  destruct (firstAnswer g 0 100) as [k |] eqn:Hfirst.
  - apply firstAnswer_some in Hfirst. destruct Hfirst as (Hk & (n & Hn) & _).
    eexists. split; [reflexivity |].
    cbn [RPCClient.calls RPCClient.slept RPCClient.returned].
    change RPCClient.checkInterval with 100000000.
    change (10 * RPCClient.Second) with 10000000000.
    split; [lia |]. split; [lia |]. split.
    + split; [| reflexivity].
      intros _. exists k, n. split; [lia | exact Hn].
    + intros Hx. exfalso. apply Hx. reflexivity.
  - pose proof (firstAnswer_none g 100 0%nat Hfirst) as Hfail.
    eexists. split; [reflexivity |].
    cbn [RPCClient.calls RPCClient.slept RPCClient.returned].
    change RPCClient.checkInterval with 100000000.
    change (10 * RPCClient.Second) with 10000000000.
    split; [lia |]. split; [lia |]. split.
    + split; [discriminate |].
      intros (k & n & Hk & Hn).
      destruct (Hfail k ltac:(lia)) as (e & He). congruence.
    + intros _. split; reflexivity.
Qed.

(** ** storage: [formatQuery] *)

Lemma string_app_assoc (a b c : string) :
  ((a ++ b) ++ c = a ++ b ++ c)%string.
Proof.
  induction a as [| ch a IH]; [reflexivity |].
  cbn [String.append]. rewrite IH. reflexivity.
Qed.

Lemma string_app_nil_r (a : string) : (a ++ EmptyString = a)%string.
Proof.
  induction a as [| ch a IH]; [reflexivity |].
  cbn [String.append]. rewrite IH. reflexivity.
Qed.

(** X20.  The text [formatQuery] builds, for every implementation of
    [Query]: the selection of the joined fields from the quoted table,
    followed by the clauses that are present, always in the order WHERE,
    ORDER BY, LIMIT.  An empty [Where] or [Order] adds nothing, and neither
    does a [Limit] of zero or less: a negative limit is no limit. *)
Theorem formatQuery_clauses {Q : Type} `{Storage.Query Q} (fields : list string)
    (table : string) (q : Q) :
  Storage.formatQuery fields table q
  = (("SELECT " ++ Storage.Join fields "," ++ " FROM " ++ Storage.quote ++ table ++ Storage.quote)
     ++ (if String.eqb (Storage.Where q) EmptyString then EmptyString
         else " WHERE " ++ Storage.Where q)
     ++ (if String.eqb (Storage.Order q) EmptyString then EmptyString
         else " ORDER BY " ++ Storage.Order q)
     ++ (if (Storage.Limit q <=? 0)%Z then EmptyString
         else " LIMIT " ++ Storage.decimal (Storage.Limit q)))%string.
Proof.
  unfold Storage.formatQuery.
  replace (0 <? Storage.Limit q) with (negb (Storage.Limit q <=? 0))
    by (destruct (Storage.Limit q <=? 0) eqn:E; cbn;
        [apply Z.leb_le in E; symmetry; apply Z.ltb_ge; lia
        | apply Z.leb_gt in E; symmetry; apply Z.ltb_lt; lia]).
  destruct (String.eqb (Storage.Where q) EmptyString);
    destruct (String.eqb (Storage.Order q) EmptyString);
    destruct (Storage.Limit q <=? 0); cbn [negb];
    rewrite ?string_app_assoc, ?string_app_nil_r; cbn [String.append];
    rewrite ?string_app_nil_r; reflexivity.
Qed.
